(** * download_structures.py: the incremental fetch / merge / checkpoint loop

    A shallow embedding of [chunks] and [fetchStructures] of
    [src/download_structures.py], and the properties of the fetch loop
    settled on it.

    Python values decoded from JSON are a tagged union ([json]); an uncaught
    exception is the [Raise] outcome of a result type; the two module-level
    lists, the function-local [resolution] variable, the two files and the
    requests sent to the remote service form one explicit [state] that is
    threaded through the code by a small state-and-error monad.  Printing,
    the pause between requests and the counter that only feeds the printed
    messages have no part in it. *)

From Stdlib Require Import ZArith List String Ascii Bool Arith Lia Permutation.
From Stdlib Require Import Floats.SpecFloat.
Import ListNotations.
Local Open Scope string_scope.
Local Open Scope list_scope.

Set Implicit Arguments.

(* ================================================================== *)
(** * Python values *)
(* ================================================================== *)

(** A Python [float] is an IEEE 754 binary64 number. *)
Definition prec : Z := 53.
Definition emax : Z := 1024.
Definition pyfloat : Type := spec_float.

(** What [json.loads] returns: [None], [bool], [int], [float], [str], [list]
    and [dict].  A [dict] is kept as its items in insertion order; the keys
    of a decoded object are strings and are pairwise distinct, and a lookup
    takes the first item with the key. Characters are code points below 256. *)
Unset Elimination Schemes.
Inductive json : Type :=
| JNull
| JBool (b : bool)
| JInt (z : Z)
| JFloat (f : pyfloat)
| JStr (s : string)
| JList (l : list json)
| JDict (items : list (string * json)).
Set Elimination Schemes.

(** Induction over a decoded value, with the hypothesis on every element of
    a list and on every value of a dict. *)
Fixpoint json_ind (P : json -> Prop)
    (HNull : P JNull) (HBool : forall b, P (JBool b)) (HInt : forall z, P (JInt z))
    (HFloat : forall f, P (JFloat f)) (HStr : forall s, P (JStr s))
    (HList : forall l, Forall P l -> P (JList l))
    (HDict : forall items, Forall (fun kv => P (snd kv)) items -> P (JDict items))
    (v : json) {struct v} : P v :=
  let rec := json_ind HNull HBool HInt HFloat HStr HList HDict in
  match v with
  | JNull => HNull
  | JBool b => HBool b
  | JInt z => HInt z
  | JFloat f => HFloat f
  | JStr s => HStr s
  | JList l =>
      HList l ((fix elems (l : list json) : Forall P l :=
                  match l with
                  | [] => Forall_nil _
                  | x :: l' => Forall_cons x (rec x) (elems l')
                  end) l)
  | JDict items =>
      HDict items ((fix vals (l : list (string * json)) : Forall (fun kv => P (snd kv)) l :=
                      match l with
                      | [] => Forall_nil _
                      | kv :: l' => Forall_cons kv (rec (snd kv)) (vals l')
                      end) items)
  end.

(** The exceptions the modelled code can raise. *)
Inductive exn : Type :=
| KeyError | TypeError | IndexError | ValueError | OverflowError
| UnboundLocalError | FileNotFoundError | RequestError.

Inductive res (A : Type) : Type :=
| Ok (a : A)
| Raise (e : exn).
Arguments Ok {A} a.
Arguments Raise {A} e.

Definition res_bind {A B} (r : res A) (k : A -> res B) : res B :=
  match r with
  | Ok a => k a
  | Raise e => Raise e
  end.

(** ** Structural equality of decoded values

    Python's [==] and this equality agree whenever one of the two values
    is a string, which is how identifiers are compared. *)

Definition float_eqb (x y : pyfloat) : bool :=
  match x, y with
  | S754_zero a, S754_zero b => Bool.eqb a b
  | S754_infinity a, S754_infinity b => Bool.eqb a b
  | S754_nan, S754_nan => true
  | S754_finite a m e, S754_finite b n f => Bool.eqb a b && Pos.eqb m n && Z.eqb e f
  | _, _ => false
  end.

Fixpoint json_eqb (x y : json) {struct x} : bool :=
  match x, y with
  | JNull, JNull => true
  | JBool a, JBool b => Bool.eqb a b
  | JInt a, JInt b => Z.eqb a b
  | JFloat a, JFloat b => float_eqb a b
  | JStr a, JStr b => String.eqb a b
  | JList l, JList m =>
      (fix elems (l m : list json) {struct l} : bool :=
         match l, m with
         | [], [] => true
         | a :: l', b :: m' => json_eqb a b && elems l' m'
         | _, _ => false
         end) l m
  | JDict l, JDict m =>
      (fix vals (l m : list (string * json)) {struct l} : bool :=
         match l, m with
         | [], [] => true
         | (j, a) :: l', (k, b) :: m' => String.eqb j k && json_eqb a b && vals l' m'
         | _, _ => false
         end) l m
  | _, _ => false
  end.

(** ** Subscripting, slicing, membership, iteration *)

Fixpoint lookup (k : string) (items : list (string * json)) : option json :=
  match items with
  | [] => None
  | (j, v) :: rest => if String.eqb j k then Some v else lookup k rest
  end.

(** [v[k]] for a string key [k]. *)
Definition getitem (v : json) (k : string) : res json :=
  match v with
  | JDict items =>
      match lookup k items with
      | Some x => Ok x
      | None => Raise KeyError
      end
  | _ => Raise TypeError
  end.

(** [v[0]]. *)
Definition getitem0 (v : json) : res json :=
  match v with
  | JList (x :: _) => Ok x
  | JList [] => Raise IndexError
  | JStr (String c _) => Ok (JStr (String c EmptyString))
  | JStr EmptyString => Raise IndexError
  | JDict _ => Raise KeyError
  | _ => Raise TypeError
  end.

Fixpoint drop (n : nat) (s : string) : string :=
  match n, s with
  | O, _ => s
  | S n', String _ s' => drop n' s'
  | S _, EmptyString => EmptyString
  end.

(** [v[3:]]. *)
Definition slice_from3 (v : json) : res json :=
  match v with
  | JStr s => Ok (JStr (drop 3 s))
  | JList l => Ok (JList (skipn 3 l))
  | _ => Raise TypeError
  end.

Definition is_substring (needle hay : string) : bool :=
  match String.index 0 needle hay with
  | Some _ => true
  | None => false
  end.

(** [k in v] for a string [k]. *)
Definition contains (k : string) (v : json) : res bool :=
  match v with
  | JDict items =>
      Ok (match lookup k items with Some _ => true | None => false end)
  | JList l => Ok (existsb (json_eqb (JStr k)) l)
  | JStr s => Ok (is_substring k s)
  | _ => Raise TypeError
  end.

Fixpoint chars (s : string) : list json :=
  match s with
  | EmptyString => []
  | String c s' => JStr (String c EmptyString) :: chars s'
  end.

(** The elements a [for] loop over [v] visits. *)
Definition iterate (v : json) : res (list json) :=
  match v with
  | JList l => Ok l
  | JDict items => Ok (map (fun kv => JStr (fst kv)) items)
  | JStr s => Ok (chars s)
  | _ => Raise TypeError
  end.

(** [v == None]. *)
Definition is_None (v : json) : bool :=
  match v with
  | JNull => true
  | _ => false
  end.

(** [set(...)] accepts hashable elements only. *)
Definition hashable (v : json) : bool :=
  match v with
  | JList _ | JDict _ => false
  | _ => true
  end.

(** ** The [float] builtin *)

Definition is_digit (c : ascii) : bool :=
  let n := nat_of_ascii c in (48 <=? n)%nat && (n <=? 57)%nat.

Definition digit_val (c : ascii) : Z := Z.of_nat (nat_of_ascii c - 48).

(** Tab, line feed, vertical tab, form feed, carriage return, space, and the
    two spaces of the upper half (next line, no-break space). *)
Definition is_space (c : ascii) : bool :=
  let n := nat_of_ascii c in
  ((9 <=? n)%nat && (n <=? 13)%nat) || (n =? 32)%nat || (n =? 133)%nat || (n =? 160)%nat.

Definition to_lower (c : ascii) : ascii :=
  let n := nat_of_ascii c in
  if (65 <=? n)%nat && (n <=? 90)%nat then ascii_of_nat (n + 32) else c.

(** An underscore is accepted between two digits and nowhere else; the
    accepted ones are dropped.  [prev] is the previous character, if any. *)
Fixpoint strip_underscores (prev : option ascii) (s : list ascii) : option (list ascii) :=
  match s with
  | [] =>
      match prev with
      | Some "_"%char => None
      | _ => Some []
      end
  | c :: s' =>
      if Ascii.eqb c "_" then
        match prev with
        | Some p => if is_digit p then strip_underscores (Some c) s' else None
        | None => None
        end
      else
        match prev with
        | Some "_"%char =>
            if is_digit c then option_map (cons c) (strip_underscores (Some c) s') else None
        | _ => option_map (cons c) (strip_underscores (Some c) s')
        end
  end.

Fixpoint drop_spaces (s : list ascii) : list ascii :=
  match s with
  | c :: s' => if is_space c then drop_spaces s' else s
  | [] => []
  end.

Definition strip (s : list ascii) : list ascii :=
  rev (drop_spaces (rev (drop_spaces s))).

Fixpoint span_digits (s : list ascii) : list ascii * list ascii :=
  match s with
  | c :: s' =>
      if is_digit c then let (d, r) := span_digits s' in (c :: d, r) else ([], s)
  | [] => ([], [])
  end.

Definition digits_value (d : list ascii) : Z :=
  fold_left (fun acc c => (10 * acc + digit_val c)%Z) d 0%Z.

Definition take_sign (s : list ascii) : bool * list ascii :=
  match s with
  | "-"%char :: s' => (true, s')
  | "+"%char :: s' => (false, s')
  | _ => (false, s)
  end.

(** The binary64 number nearest to [m * 10 ^ e10] (ties to even), with sign
    [neg]; too large a magnitude gives an infinity, too small a zero. *)
Definition float_of_decimal (neg : bool) (m : Z) (e10 : Z) : pyfloat :=
  match m with
  | Zpos p =>
      if (0 <=? e10)%Z then
        match (Zpos p * 10 ^ e10)%Z with
        | Zpos q => binary_round prec emax neg q 0
        | _ => S754_nan
        end
      else
        match (10 ^ (- e10))%Z with
        | Zpos q => SFdiv prec emax (S754_finite neg p 0) (S754_finite false q 0)
        | _ => S754_nan
        end
  | _ => S754_zero neg
  end.

(** [digits [. digits] [e [sign] digits]], at least one digit before the
    exponent, nothing after it. *)
Definition parse_decimal (neg : bool) (s : list ascii) : option pyfloat :=
  let (int_part, r1) := span_digits s in
  let (frac_part, r2) :=
    match r1 with
    | "."%char :: r => span_digits r
    | _ => ([], r1)
    end in
  match int_part ++ frac_part with
  | [] => None
  | ds =>
      let m := digits_value ds in
      let scale := Z.of_nat (List.length frac_part) in
      match r2 with
      | [] => Some (float_of_decimal neg m (- scale))
      | e :: r =>
          if Ascii.eqb (to_lower e) "e" then
            let (eneg, r') := take_sign r in
            match span_digits r' with
            | ((_ :: _) as ed, []) =>
                let x := digits_value ed in
                Some (float_of_decimal neg m ((if eneg then - x else x) - scale))
            | _ => None
            end
          else None
      end
  end.

Definition lower_chars (s : list ascii) : string :=
  string_of_list_ascii (map to_lower s).

Definition parse_inf_nan (neg : bool) (s : list ascii) : option pyfloat :=
  let w := lower_chars s in
  if String.eqb w "inf" || String.eqb w "infinity" then Some (S754_infinity neg)
  else if String.eqb w "nan" then Some S754_nan
  else None.

(** [float(s)] for a string [s]; [None] is [ValueError]. *)
Definition float_of_string (s : string) : option pyfloat :=
  let raw := list_ascii_of_string s in
  let cleaned :=
    if existsb (Ascii.eqb "_") raw then strip_underscores None raw else Some raw in
  match cleaned with
  | None => None
  | Some t =>
      let (neg, body) := take_sign (strip t) in
      match parse_decimal neg body with
      | Some f => Some f
      | None => parse_inf_nan neg body
      end
  end.

(** [float(n)] for an [int] [n]: the nearest binary64 number;
    [OverflowError] when that is not finite. *)
Definition float_of_int (z : Z) : res pyfloat :=
  match binary_normalize prec emax z 0 false with
  | S754_infinity _ => Raise OverflowError
  | f => Ok f
  end.

(** [float(v)]. *)
Definition py_float (v : json) : res pyfloat :=
  match v with
  | JFloat f => Ok f
  | JInt z => float_of_int z
  | JBool b => float_of_int (if b then 1 else 0)
  | JStr s =>
      match float_of_string s with
      | Some f => Ok f
      | None => Raise ValueError
      end
  | _ => Raise TypeError
  end.

(* ================================================================== *)
(** * Records, stores and the collaborators *)
(* ================================================================== *)

(** Modelled from the spec: the class [Structure] of [pdb_crystal_database],
    which is not among the sources.  A record keeps the nine arguments of the
    constructor call in [fetchStructures]; the fourth argument and
    [sequences] are always the empty list there. *)
Record Structure : Type := mkStructure {
  pdbid : json;
  pmcid : json;
  details : json;
  compounds : list json;
  pH : option pyfloat;
  temperature : option pyfloat;
  method : json;
  sequences : list json;
  resolution : option pyfloat
}.

Definition option_eqb {A} (eqb : A -> A -> bool) (x y : option A) : bool :=
  match x, y with
  | Some a, Some b => eqb a b
  | None, None => true
  | _, _ => false
  end.

Definition Structure_eqb (a b : Structure) : bool :=
  json_eqb (pdbid a) (pdbid b) && json_eqb (pmcid a) (pmcid b)
  && json_eqb (details a) (details b)
  && json_eqb (JList (compounds a)) (JList (compounds b))
  && option_eqb float_eqb (pH a) (pH b)
  && option_eqb float_eqb (temperature a) (temperature b)
  && json_eqb (method a) (method b)
  && json_eqb (JList (sequences a)) (JList (sequences b))
  && option_eqb float_eqb (resolution a) (resolution b).

(** Modelled from the spec: [getStructure] of [pdb_crystal_database], which
    is not among the sources; the lookup-by-key of the record store: the
    first record of the list with the identifier, [None] when there is none. *)
Fixpoint getStructure (structureList : list Structure) (id : json) : option Structure :=
  match structureList with
  | [] => None
  | s :: rest => if json_eqb (pdbid s) id then Some s else getStructure rest id
  end.

(** [lst.remove(x)]: the list without its first element equal to [x].  For
    the record that [getStructure] found this is the occurrence found,
    whether records compare by identity or field by field
    ([list_remove_found] below). *)
Fixpoint list_remove (x : Structure) (lst : list Structure) : list Structure :=
  match lst with
  | [] => []
  | y :: rest => if Structure_eqb y x then rest else y :: list_remove x rest
  end.

(** The module-level lists, the local variable [resolution] of
    [fetchStructures] ([None] while it is unbound), the contents of the two
    files ([None] while a file does not exist) and the batches sent to the
    remote service so far, oldest first. *)
Record state : Type := mkState {
  structureList : list Structure;
  pdbsWithoutDetails : list json;
  resolution_var : option pyfloat;
  structures_file : option (list Structure);
  without_details_file : option (list json);
  requests : list (list string)
}.

(** ** State and exceptions *)

Definition M (A : Type) : Type := state -> res A * state.

Definition ret {A} (a : A) : M A := fun s => (Ok a, s).

Definition bind {A B} (m : M A) (k : A -> M B) : M B :=
  fun s =>
    match m s with
    | (Ok a, s') => k a s'
    | (Raise e, s') => (Raise e, s')
    end.

Definition lift {A} (r : res A) : M A := fun s => (r, s).

Definition get : M state := fun s => (Ok s, s).

Definition modify (f : state -> state) : M unit := fun s => (Ok tt, f s).

Declare Scope monad_scope.
Delimit Scope monad_scope with monad.
Notation "x <- m ;; k" := (bind m (fun x => k))
  (at level 61, m at next level, right associativity) : monad_scope.
Notation "m ;; k" := (bind m (fun _ => k))
  (at level 61, right associativity) : monad_scope.
Local Open Scope monad_scope.

(** A [for] loop whose body has no [break]: the body runs on every element
    in turn, an exception ends the loop. *)
Fixpoint for_each {A} (body : A -> M unit) (l : list A) : M unit :=
  match l with
  | [] => ret tt
  | a :: rest => body a ;; for_each body rest
  end.

Definition set_structureList (l : list Structure) : M unit :=
  modify (fun s => mkState l (pdbsWithoutDetails s) (resolution_var s)
                           (structures_file s) (without_details_file s) (requests s)).

Definition set_pdbsWithoutDetails (l : list json) : M unit :=
  modify (fun s => mkState (structureList s) l (resolution_var s)
                           (structures_file s) (without_details_file s) (requests s)).

Definition set_resolution (r : option pyfloat) : M unit :=
  modify (fun s => mkState (structureList s) (pdbsWithoutDetails s) r
                           (structures_file s) (without_details_file s) (requests s)).

(** Modelled from the spec: [loadStructures], [writeStructures] of
    [pdb_crystal_database] and [loadJson], [writeJson] of [misc_functions],
    which are not among the sources: load of all records and save of all
    records as a unit; loading a file that does not exist raises. *)
Definition loadStructures : M (list Structure) :=
  s <- get ;;
  match structures_file s with
  | Some l => ret l
  | None => lift (Raise FileNotFoundError)
  end.

Definition loadJson : M (list json) :=
  s <- get ;;
  match without_details_file s with
  | Some l => ret l
  | None => lift (Raise FileNotFoundError)
  end.

Definition writeStructures (l : list Structure) : M unit :=
  modify (fun s => mkState (structureList s) (pdbsWithoutDetails s) (resolution_var s)
                           (Some l) (without_details_file s) (requests s)).

Definition writeJson (l : list json) : M unit :=
  modify (fun s => mkState (structureList s) (pdbsWithoutDetails s) (resolution_var s)
                           (structures_file s) (Some l) (requests s)).

(** [try: body  except E: handler], where [catches] tells the exceptions
    the clause catches. *)
Definition try_except {A} (body : M A) (catches : exn -> bool) (handler : M A) : M A :=
  fun s =>
    match body s with
    | (Raise e, s') => if catches e then handler s' else (Raise e, s')
    | r => r
    end.

(** A bare [except:] around an expression: the value, or [None]. *)
Definition or_None {A} (r : res A) : option A :=
  match r with
  | Ok a => Some a
  | Raise _ => None
  end.

(* ================================================================== *)
(** * The code of download_structures.py *)
(* ================================================================== *)

Definition CHUNK_SIZE : nat := 1000.

(** [range(0, stop, step)] for a positive [step]. *)
Definition range0 (stop step : nat) : list nat :=
  map (fun k => k * step) (seq 0 ((stop + step - 1) / step)).

(** [lst[i:j]] for [0 <= i <= j]. *)
Definition slice {A} (lst : list A) (i j : nat) : list A :=
  firstn (j - i) (skipn i lst).

(** [chunks(lst, n)]: the chunks the generator yields, in order.  A step of
    zero makes [range] raise [ValueError]. *)
Definition chunks {A} (lst : list A) (n : nat) : res (list (list A)) :=
  match n with
  | O => Raise ValueError
  | _ => Ok (map (fun i => slice lst i (i + n)) (range0 (List.length lst) n))
  end.

(** [set(pdbList) - set(ignoredPdbList)]: the identifiers of [pdbList], each
    once, that equal no ignored value; building the second set raises
    [TypeError] on an unhashable value. *)
Definition set_difference (pdbList : list string) (ignoredPdbList : list json)
  : res (list string) :=
  if forallb hashable ignoredPdbList then
    Ok (filter (fun x => negb (existsb (json_eqb (JStr x)) ignoredPdbList))
               (nodup string_dec pdbList))
  else Raise TypeError.

Section FetchLoop.

(** The order in which [list(...)] enumerates a set is not specified; it
    is given by [set_iter].  The remote service maps the batch of
    identifiers of a request to the decoded response, or fails. *)
Variable set_iter : list string -> list string.
Variable remote : list string -> res json.

(** [loadPdbs(pdbids)]: one request with the identifiers of the batch. *)
Definition loadPdbs (pdbids : list string) : M json :=
  modify (fun s => mkState (structureList s) (pdbsWithoutDetails s) (resolution_var s)
                           (structures_file s) (without_details_file s)
                           (requests s ++ [pdbids])) ;;
  lift (remote pdbids).

Definition append_without_details (id : json) : M unit :=
  s <- get ;; set_pdbsWithoutDetails (pdbsWithoutDetails s ++ [id]).

(** Lines 182-186: the linked-publication id without its first three
    characters, [None] when anything in the block raises. *)
Definition extract_pmcid (entry : json) : json :=
  match res_bind (getitem entry "pubmed") (fun pubmed =>
        res_bind (getitem pubmed "rcsb_pubmed_central_id") slice_from3) with
  | Ok v => v
  | Raise _ => JNull
  end.

(** Lines 188-191 and 193-196. *)
Definition extract_pH (crystalEntry : json) : option pyfloat :=
  or_None (res_bind (getitem crystalEntry "pH") py_float).

Definition extract_temperature (crystalEntry : json) : option pyfloat :=
  or_None (res_bind (getitem crystalEntry "temp") py_float).

(** The expression of line 204. *)
Definition resolution_expr (entry : json) : res pyfloat :=
  res_bind (getitem entry "rcsb_entry_info") (fun info =>
  res_bind (getitem info "resolution_combined") (fun l =>
  res_bind (getitem0 l) py_float)).

(** Lines 203-206: on success [resolution] is assigned; the handler
    assigns [None] to another name, [resultion], and [resolution] keeps
    whatever it held. *)
Definition assign_resolution (entry : json) : M unit :=
  match resolution_expr entry with
  | Ok r => set_resolution (Some r)
  | Raise _ => ret tt
  end.

(** Reading the local variable [resolution] (line 208). *)
Definition read_resolution : M pyfloat :=
  s <- get ;;
  match resolution_var s with
  | Some r => ret r
  | None => lift (Raise UnboundLocalError)
  end.

(** Lines 210-213: the record takes the place of the one the store has
    for its identifier, if any, at the end of the list. *)
Definition update_store (structure : Structure) : M unit :=
  s <- get ;;
  match getStructure (structureList s) (pdbid structure) with
  | Some structureAlreadyInList =>
      set_structureList (list_remove structureAlreadyInList (structureList s))
  | None => ret tt
  end ;;
  s <- get ;;
  set_structureList (structureList s ++ [structure]).

(** Lines 182-213: the record of an entry is built and stored. *)
Definition build_record (entry id crystalEntry det : json) : M unit :=
  let pmc := extract_pmcid entry in
  let ph := extract_pH crystalEntry in
  let temp := extract_temperature crystalEntry in
  meth <- lift (getitem crystalEntry "method") ;;
  assign_resolution entry ;;
  r <- read_resolution ;;
  update_store (mkStructure id pmc det [] ph temp meth [] (Some r)).

(** The body of the loop over the entries of a response (lines 168-213). *)
Definition process_entry (onlyDetails : bool) (entry : json) : M unit :=
  id <- lift (getitem entry "rcsb_id") ;;
  grow <- lift (getitem entry "exptl_crystal_grow") ;;
  if is_None grow then
    append_without_details id
  else
    crystalEntry <- lift (getitem0 grow) ;;
    det <- lift (getitem crystalEntry "pdbx_details") ;;
    (if is_None det then append_without_details id else ret tt) ;;
    if is_None det && onlyDetails then ret tt
    else build_record entry id crystalEntry det.

(** The body of the loop over the chunks (lines 149-220). *)
Definition process_chunk (onlyDetails : bool) (chunk : list string) : M unit :=
  response <- loadPdbs chunk ;;
  has_data <- lift (contains "data" response) ;;
  if negb has_data then ret tt
  else
    data <- lift (getitem response "data") ;;
    entries <- lift (res_bind (getitem data "entries") iterate) ;;
    for_each (process_entry onlyDetails) entries ;;
    s <- get ;;
    writeStructures (structureList s) ;;
    s <- get ;;
    writeJson (pdbsWithoutDetails s).

Definition catches_FileNotFoundError (e : exn) : bool :=
  match e with
  | FileNotFoundError => true
  | _ => false
  end.

(** Lines 114-142: both lists are loaded and the identifiers still to
    fetch are computed. *)
Definition prepare (pdbList : list string)
    (ignorePdbsWithoutDetails ignoreCompletedPdbs : bool) : M (list string) :=
  set_resolution None ;;
  set_structureList [] ;;
  set_pdbsWithoutDetails [] ;;
  try_except (l <- loadJson ;; set_pdbsWithoutDetails l) (fun _ => true) (ret tt) ;;
  completedPdbList <-
    try_except (l <- loadStructures ;;
                set_structureList l ;;
                ret (if ignoreCompletedPdbs then map pdbid l else []))
               catches_FileNotFoundError (ret []) ;;
  s <- get ;;
  let ignoredPdbList :=
    (if ignorePdbsWithoutDetails then pdbsWithoutDetails s else []) ++ completedPdbList in
  work <- lift (set_difference pdbList ignoredPdbList) ;;
  ret (set_iter work).

(** [fetchStructures(pdbList, structureFile, onlyDetails,
    ignorePdbsWithoutDetails, ignoreCompletedPdbs)]. *)
Definition fetchStructures (pdbList : list string)
    (onlyDetails ignorePdbsWithoutDetails ignoreCompletedPdbs : bool)
  : M (list Structure) :=
  pdbList <- prepare pdbList ignorePdbsWithoutDetails ignoreCompletedPdbs ;;
  cs <- lift (chunks pdbList CHUNK_SIZE) ;;
  for_each (process_chunk onlyDetails) cs ;;
  s <- get ;;
  writeStructures (structureList s) ;;
  s <- get ;;
  writeJson (pdbsWithoutDetails s) ;;
  s <- get ;;
  ret (structureList s).

(** The script's entry point (lines 298-308), given the identifiers
    [getAllPdbs()] returned: on any exception the two lists are saved. *)
Definition main (allPdbs : list string) : M unit :=
  try_except (fetchStructures allPdbs true true true ;; ret tt) (fun _ => true)
             (s <- get ;;
              writeStructures (structureList s) ;;
              s <- get ;;
              writeJson (pdbsWithoutDetails s)).

End FetchLoop.

(** A run starts with nothing in memory: only the files matter. *)
Definition on_disk (sf : option (list Structure)) (wf : option (list json)) : state :=
  mkState [] [] None sf wf [].


(** A remote service that answers every identifier on its own: the response
    to a batch carries, in the order of the request, the entry the catalog
    has for each identifier of the batch. *)
Definition catalog_remote (catalog : string -> option json) (batch : list string)
  : res json :=
  Ok (JDict [("data",
       JDict [("entries",
         JList (flat_map (fun x => match catalog x with
                                   | Some e => [e]
                                   | None => []
                                   end) batch))])]).

(** Whether lines 168-180 end the iteration for an entry with [continue]:
    the crystallization-growth data is absent, or the details text is null
    while only entries with details are wanted. *)
Definition continues (onlyDetails : bool) (entry : json) : bool :=
  match getitem entry "rcsb_id", getitem entry "exptl_crystal_grow" with
  | Ok _, Ok grow =>
      if is_None grow then true
      else
        match res_bind (getitem0 grow) (fun c => getitem c "pdbx_details") with
        | Ok det => is_None det && onlyDetails
        | Raise _ => false
        end
  | _, _ => false
  end.

(** The entries of a decoded response, as the loop of line 167 visits them:
    nothing when the response has no ["data"], or when an expression of
    lines 162-167 raises. *)
Definition entries_of (response : json) : list json :=
  match contains "data" response with
  | Ok true =>
      match res_bind (getitem response "data") (fun data =>
            res_bind (getitem data "entries") iterate) with
      | Ok l => l
      | Raise _ => []
      end
  | _ => []
  end.

(** The list that lines 210-213 leave in [structureList]. *)
Definition updated (l : list Structure) (structure : Structure) : list Structure :=
  match getStructure l (pdbid structure) with
  | Some structureAlreadyInList => list_remove structureAlreadyInList l
  | None => l
  end ++ [structure].

(** The identifiers the record store holds. *)
Definition stored_ids (l : list Structure) : list json := map pdbid l.

(** The state once [pdbsWithoutDetails.append(id)] has run. *)
Definition excluded_also (id : json) (s : state) : state :=
  mkState (structureList s) (pdbsWithoutDetails s ++ [id]) (resolution_var s)
          (structures_file s) (without_details_file s) (requests s).

(** The list a file holds; a file that does not exist counts as empty. *)
Definition from_file {A} (f : option (list A)) : list A :=
  match f with
  | Some l => l
  | None => []
  end.

(** The state once lines 114-132 have loaded both files. *)
Definition loaded (s : state) : state :=
  mkState (from_file (structures_file s)) (from_file (without_details_file s)) None
          (structures_file s) (without_details_file s) (requests s).

(** The state once both lists have been written to their files. *)
Definition saved (s : state) : state :=
  mkState (structureList s) (pdbsWithoutDetails s) (resolution_var s)
          (Some (structureList s)) (Some (pdbsWithoutDetails s)) (requests s).

(** The state once a batch has been sent to the remote service. *)
Definition logged (batch : list string) (s : state) : state :=
  mkState (structureList s) (pdbsWithoutDetails s) (resolution_var s)
          (structures_file s) (without_details_file s) (requests s ++ [batch]).

(** [ignoredPdbList] of line 142, from the two lists as loaded. *)
Definition ignored_ids (ignorePdbsWithoutDetails ignoreCompletedPdbs : bool)
    (stored : list Structure) (excluded : list json) : list json :=
  (if ignorePdbsWithoutDetails then excluded else [])
  ++ (if ignoreCompletedPdbs then stored_ids stored else []).

(** The remote service answers what it is asked: the entries of a response
    are entries of identifiers of the batch, and carry the identifier. *)
Definition answers_requested (remote : list string -> res json) : Prop :=
  forall batch response entry id,
    remote batch = Ok response -> In entry (entries_of response) ->
    getitem entry "rcsb_id" = Ok id -> exists x, id = JStr x /\ In x batch.

(** Every stored identifier, in memory and in the file, satisfies [okS], and
    every excluded identifier, in memory and in the file, satisfies [okE]. *)
Definition within (okS okE : json -> Prop) (s : state) : Prop :=
  (forall v, In v (stored_ids (structureList s)) -> okS v) /\
  (forall v, In v (pdbsWithoutDetails s) -> okE v) /\
  (forall v, In v (stored_ids (from_file (structures_file s))) -> okS v) /\
  (forall v, In v (from_file (without_details_file s)) -> okE v).

(** [preserves P m]: a property of the state that survives [m], whether it
    returns or raises. *)
Definition preserves {A} (P : state -> Prop) (m : M A) : Prop :=
  forall s r s', P s -> m s = (r, s') -> P s'.

(** The two lists in memory hold at least [ids] and [excluded]. *)
Definition holds (ids excluded : list json) (t : state) : Prop :=
  incl ids (stored_ids (structureList t)) /\ incl excluded (pdbsWithoutDetails t).

(** The identifiers of the entries that a batch brings in satisfy [okS]
    and [okE]. *)
Definition batch_allowed (remote : list string -> res json) (okS okE : json -> Prop)
    (batch : list string) : Prop :=
  forall response entry id,
    remote batch = Ok response -> contains "data" response = Ok true ->
    In entry (entries_of response) -> getitem entry "rcsb_id" = Ok id ->
    okS id /\ okE id.

(** The exclusion file still starts with [E0] and the list in memory with
    the file; the file still stores the identifiers [ids] and the memory
    those of the file. *)
Definition grown_from (ids E0 : list json) (t : state) : Prop :=
  (exists added, from_file (without_details_file t) = E0 ++ added) /\
  (exists unsaved, pdbsWithoutDetails t = from_file (without_details_file t) ++ unsaved) /\
  incl ids (stored_ids (from_file (structures_file t))) /\
  incl (stored_ids (from_file (structures_file t))) (stored_ids (structureList t)).

(** At most one record per identifier, in memory and in the file. *)
Definition one_record_per_id (t : state) : Prop :=
  NoDup (stored_ids (structureList t)) /\
  NoDup (stored_ids (from_file (structures_file t))).

(** Every record, in memory and in the file, is one of [S0] or has a
    details text. *)
Definition details_or_old (S0 : list Structure) (t : state) : Prop :=
  (forall x, In x (structureList t) -> In x S0 \/ is_None (details x) = false) /\
  (forall x, In x (from_file (structures_file t)) -> In x S0 \/ is_None (details x) = false).


(** While [resolution] is unbound the store, in memory and in the file, is
    [S0]. *)
Definition untouched_while_unbound (S0 : list Structure) (t : state) : Prop :=
  resolution_var t = None ->
  structureList t = S0 /\ from_file (structures_file t) = S0.

(* ================================================================== *)
(** * The request of loadPdbs *)
(* ================================================================== *)

Definition squote : ascii := "'"%char.
Definition dquote : ascii := ascii_of_nat 34.
Definition backslash : ascii := ascii_of_nat 92.

Definition has_char (c : ascii) (s : string) : bool :=
  existsb (Ascii.eqb c) (list_ascii_of_string s).

(** The characters [repr] copies as they are, unless they are the quote or
    the backslash: the printable ones, among code points below 256. *)
Definition printable (c : ascii) : bool :=
  let n := nat_of_ascii c in
  ((32 <=? n)%nat && (n <=? 126)%nat) || ((161 <=? n)%nat && negb (n =? 173)%nat).

Definition hex_digit (n : nat) : ascii :=
  nth n (list_ascii_of_string "0123456789abcdef") "0"%char.

(** One character of [repr(s)] for a string, between quotes [quote]. *)
Definition repr_char (quote c : ascii) : string :=
  if Ascii.eqb c quote || Ascii.eqb c backslash then String backslash (String c EmptyString)
  else if Ascii.eqb c (ascii_of_nat 9) then String backslash "t"
  else if Ascii.eqb c (ascii_of_nat 10) then String backslash "n"
  else if Ascii.eqb c (ascii_of_nat 13) then String backslash "r"
  else if printable c then String c EmptyString
  else String backslash
         (String "x" (String (hex_digit (nat_of_ascii c / 16))
                        (String (hex_digit (nat_of_ascii c mod 16)) EmptyString))).

Fixpoint flat_chars (f : ascii -> string) (s : string) : string :=
  match s with
  | EmptyString => EmptyString
  | String c s' => (f c ++ flat_chars f s')%string
  end.

(** [repr(s)] for a string: single quotes, unless the string has a single
    quote and no double quote. *)
Definition repr_str (s : string) : string :=
  let quote := if has_char squote s && negb (has_char dquote s) then dquote else squote in
  String quote (flat_chars (repr_char quote) s ++ String quote EmptyString)%string.

(** [str(l)] for a list of strings. *)
Definition str_list (l : list string) : string :=
  ("[" ++ String.concat ", " (map repr_str l) ++ "]")%string.

(** [s.replace(old, new)]: every occurrence of [old], found from left to
    right without overlap, gives way to [new]; with an empty [old], [new]
    goes before every character and at the end.  [skip] counts the
    characters of an occurrence still to pass over. *)
Fixpoint replace_from (old new : string) (skip : nat) (s : string) : string :=
  match s with
  | EmptyString => EmptyString
  | String c s' =>
      match skip with
      | S k => replace_from old new k s'
      | O =>
          if String.prefix old s
          then (new ++ replace_from old new (String.length old - 1) s')%string
          else String c (replace_from old new 0 s')
      end
  end.

Definition replace (old new s : string) : string :=
  match old with
  | EmptyString => (flat_chars (fun c => new ++ String c EmptyString) s ++ new)%string
  | _ => replace_from old new 0 s
  end.

(** The query text of lines 63-82, before and after the place of the
    list. *)
Definition QUERY_before : string := "
    {
        entries(entry_ids: ".

Definition QUERY_after : string := ") {
            rcsb_id
            exptl_crystal_grow {
                method
                temp
                pdbx_details
                pH

            }
            rcsb_entry_info {
                resolution_combined
            }
            pubmed {
                rcsb_pubmed_central_id
            }
        }
    }
    ".

Definition QUERY : string := (QUERY_before ++ "[[PDB_LIST]]" ++ QUERY_after)%string.

(** Lines 84-87: the address [loadPdbs] asks for. *)
Definition build_query (pdbids : list string) : string :=
  replace (String squote EmptyString) (String dquote EmptyString)
          (replace "[[PDB_LIST]]" (str_list pdbids) QUERY).

Definition request_url (pdbids : list string) : string :=
  ("https://data.rcsb.org/graphql?query=" ++ build_query pdbids)%string.

(** A character that is printable and neither a single quote nor a
    backslash. *)
Definition plain (c : ascii) : bool :=
  printable c && negb (Ascii.eqb c squote) && negb (Ascii.eqb c backslash).

Definition plain_id (s : string) : bool := forallb plain (list_ascii_of_string s).

(** An identifier between double quotes. *)
Definition quoted (s : string) : string :=
  String dquote (s ++ String dquote EmptyString)%string.

(** What replacing the single quote by the double quote does to one
    character. *)
Definition swap_quote (d : ascii) : string :=
  if Ascii.eqb d squote then String dquote EmptyString else String d EmptyString.

(* ================================================================== *)
(** * Sample data *)
(* ================================================================== *)

(** An entry as the query of [loadPdbs] asks for it. *)
Definition sample_entry (id : string) (grow resolution_combined pubmed : json) : json :=
  JDict [("rcsb_id", JStr id);
         ("exptl_crystal_grow", grow);
         ("rcsb_entry_info", JDict [("resolution_combined", resolution_combined)]);
         ("pubmed", pubmed)].

Definition sample_grow (meth temp det ph : json) : json :=
  JList [JDict [("method", meth); ("temp", temp); ("pdbx_details", det); ("pH", ph)]].

Definition vapor_diffusion : json :=
  sample_grow (JStr "Vapor Diffusion") (JStr "298") (JStr "PEG 4000, 0.1 M HEPES") (JStr "7.0").

(** No crystallization-growth data. *)
Definition entry_1AAA : json :=
  sample_entry "1AAA" JNull JNull JNull.

(** Full details, resolution list [[1.8]]. *)
Definition entry_1BBB : json :=
  sample_entry "1BBB" vapor_diffusion (JList [JFloat (float_of_decimal false 18 (-1))]) JNull.

(** Full details, no resolution. *)
Definition entry_1CCC : json :=
  sample_entry "1CCC" vapor_diffusion JNull JNull.

(** Full details, a linked-publication id without the prefix. *)
Definition entry_1DDD : json :=
  sample_entry "1DDD" vapor_diffusion (JList [JFloat (float_of_decimal false 21 (-1))])
               (JDict [("rcsb_pubmed_central_id", JStr "12345678")]).

Definition sample_catalog (x : string) : option json :=
  if String.eqb x "1AAA" then Some entry_1AAA
  else if String.eqb x "1BBB" then Some entry_1BBB
  else if String.eqb x "1CCC" then Some entry_1CCC
  else if String.eqb x "1DDD" then Some entry_1DDD
  else None.

Definition record_1BBB : Structure :=
  mkStructure (JStr "1BBB") JNull (JStr "PEG 4000, 0.1 M HEPES") []
              (Some (float_of_decimal false 7 0)) (Some (float_of_decimal false 298 0))
              (JStr "Vapor Diffusion") [] (Some (float_of_decimal false 18 (-1))).

(** The record line 208 builds for 1CCC after 1BBB. *)
Definition record_1CCC_after_1BBB : Structure :=
  mkStructure (JStr "1CCC") JNull (JStr "PEG 4000, 0.1 M HEPES") []
              (Some (float_of_decimal false 7 0)) (Some (float_of_decimal false 298 0))
              (JStr "Vapor Diffusion") [] (Some (float_of_decimal false 18 (-1))).

(** A remote service that cuts every answer down to its first entry. *)
Definition first_entry_only (catalog : string -> option json) (batch : list string)
  : res json :=
  Ok (JDict [("data",
       JDict [("entries",
         JList (firstn 1 (flat_map (fun x => match catalog x with
                                             | Some e => [e]
                                             | None => []
                                             end) batch)))])]).

Definition same_order (l : list string) : list string := l.

(** The state a first run over 1BBB and 1DDD leaves when the remote service
    cuts its answers, and the state a first run over 1AAA and 1BBB leaves
    against the sample catalog. *)
Definition after_cut_run : state :=
  Eval vm_compute in
    snd (fetchStructures same_order (first_entry_only sample_catalog)
           ["1BBB"; "1DDD"] true true true (on_disk None None)).

Definition after_sample_run : state :=
  Eval vm_compute in
    snd (fetchStructures same_order (catalog_remote sample_catalog)
           ["1AAA"; "1BBB"] true true true (on_disk None None)).

Definition record_1DDD : Structure :=
  mkStructure (JStr "1DDD") (JStr "45678") (JStr "PEG 4000, 0.1 M HEPES") []
              (Some (float_of_decimal false 7 0)) (Some (float_of_decimal false 298 0))
              (JStr "Vapor Diffusion") [] (Some (float_of_decimal false 21 (-1))).

(** Another record for 1BBB, as a fetch with a linked publication and no
    pH would build it. *)
Definition record_1BBB_again : Structure :=
  mkStructure (JStr "1BBB") (JStr "1234567") (JStr "PEG 4000, 0.1 M HEPES") []
              None (Some (float_of_decimal false 298 0))
              (JStr "Vapor Diffusion") [] (Some (float_of_decimal false 18 (-1))).

(** A store of three records in memory. *)
Definition sample_store : state :=
  mkState [record_1DDD; record_1BBB; record_1CCC_after_1BBB] [JStr "1AAA"] None None None [].

(** A thousand and one identifiers, 0000 to 1000: one more than a batch
    holds, so that a run over them sends two batches. *)
Definition four_digits (n : nat) : string :=
  String (ascii_of_nat (48 + n / 1000))
    (String (ascii_of_nat (48 + (n / 100) mod 10))
       (String (ascii_of_nat (48 + (n / 10) mod 10))
          (String (ascii_of_nat (48 + n mod 10)) EmptyString))).

Definition many_ids : list string := map four_digits (seq 0 (S CHUNK_SIZE)).

(** An entry with full details and resolution list [[1.8]]. *)
Definition full_entry (id : string) : json :=
  sample_entry id vapor_diffusion (JList [JFloat (float_of_decimal false 18 (-1))]) JNull.

Definition full_record (id : string) : Structure :=
  mkStructure (JStr id) JNull (JStr "PEG 4000, 0.1 M HEPES") []
              (Some (float_of_decimal false 7 0)) (Some (float_of_decimal false 298 0))
              (JStr "Vapor Diffusion") [] (Some (float_of_decimal false 18 (-1))).

Definition error_document : json := JDict [("errors", JList [JStr "bad request"])].

(** A remote service that answers a full batch with an error document, and
    any other batch with the entry of 0000, asked for or not. *)
Definition answers_0000 (batch : list string) : res json :=
  if Nat.eqb (List.length batch) CHUNK_SIZE then Ok error_document
  else Ok (JDict [("data", JDict [("entries", JList [full_entry "0000"])])]).

(** A remote service that answers a full batch with an error document, and
    any other batch with a full entry for each of its identifiers. *)
Definition skips_full_batch (batch : list string) : res json :=
  if Nat.eqb (List.length batch) CHUNK_SIZE then Ok error_document
  else catalog_remote (fun x => Some (full_entry x)) batch.

(** A first condition with a null details text and no method. *)
Definition entry_1FFF : json :=
  sample_entry "1FFF" (JList [JDict [("pdbx_details", JNull)]]) JNull JNull.

(** The state the batch 1AAA, 1BBB leaves from the sample store, against the
    sample catalog. *)
Definition after_sample_batch : state :=
  Eval vm_compute in
    snd (process_chunk (catalog_remote sample_catalog) true ["1AAA"; "1BBB"] sample_store).

(** The states a run over the thousand and one identifiers leaves, from
    empty files, against each of the two. *)
Definition after_stray_entry : state :=
  Eval vm_compute in
    snd (fetchStructures same_order answers_0000 many_ids true true true
           (on_disk None None)).

Definition after_skipped_batch : state :=
  Eval vm_compute in
    snd (fetchStructures same_order skips_full_batch many_ids true true true
           (on_disk None None)).

(* ================================================================== *)
(** * Equality of values and records *)
(* ================================================================== *)

Lemma float_eqb_eq (x y : pyfloat) : float_eqb x y = true <-> x = y.
Proof.
  destruct x as [a|a| |a m e], y as [b|b| |b n f]; simpl;
    try (split; [discriminate | intro H; inversion H]); try tauto.
  - rewrite Bool.eqb_true_iff. split; [congruence | intro H; now inversion H].
  - rewrite Bool.eqb_true_iff. split; [congruence | intro H; now inversion H].
  - rewrite !andb_true_iff, Bool.eqb_true_iff, Pos.eqb_eq, Z.eqb_eq.
    split; [intros [[-> ->] ->]; reflexivity | intro H; inversion H; auto].
Qed.

Lemma json_eqb_eq (x y : json) : json_eqb x y = true <-> x = y.
Proof.
  revert y.
  induction x as [ |a|a|a|a|l IH|l IH] using json_ind; intros [ |b|b|b|b|m|m]; simpl;
    try (split; [discriminate | intro H; inversion H]); try tauto.
  - rewrite Bool.eqb_true_iff. split; [congruence | intro H; now inversion H].
  - rewrite Z.eqb_eq. split; [congruence | intro H; now inversion H].
  - rewrite float_eqb_eq. split; [congruence | intro H; now inversion H].
  - rewrite String.eqb_eq. split; [congruence | intro H; now inversion H].
  - revert m. induction IH as [ |a l Ha _ IHl]; intros [ |b m];
      try (split; [discriminate | intro H; inversion H]); [tauto| ].
    rewrite andb_true_iff, Ha, IHl.
    split; [intros [-> H]; inversion H; reflexivity | intro H; inversion H; auto].
  - revert m. induction IH as [ |[j a] l Ha _ IHl]; intros [ |[k b] m];
      try (split; [discriminate | intro H; inversion H]); [tauto| ].
    simpl in Ha. rewrite !andb_true_iff, String.eqb_eq, Ha, IHl.
    split; [intros [[-> ->] H]; inversion H; reflexivity | intro H; inversion H; auto].
Qed.

Lemma json_eqb_refl (x : json) : json_eqb x x = true.
Proof. now apply json_eqb_eq. Qed.

Lemma json_eqb_neq (x y : json) : json_eqb x y = false <-> x <> y.
Proof.
  rewrite <- json_eqb_eq. destruct (json_eqb x y); split; congruence.
Qed.

Lemma option_float_eqb_eq (x y : option pyfloat) :
  option_eqb float_eqb x y = true <-> x = y.
Proof.
  destruct x as [a| ], y as [b| ]; simpl; try (split; congruence).
  rewrite float_eqb_eq. split; congruence.
Qed.

Lemma Structure_eqb_eq (a b : Structure) : Structure_eqb a b = true <-> a = b.
Proof.
  unfold Structure_eqb. destruct a, b. cbn [pdbid pmcid details compounds pH
    temperature method sequences resolution].
  rewrite !andb_true_iff, !json_eqb_eq, !option_float_eqb_eq.
  split.
  - intros [[[[[[[[-> ->] ->] H1] ->] ->] ->] H2] ->].
    inversion H1; inversion H2; reflexivity.
  - intro H; inversion H; subst; tauto.
Qed.

(* ================================================================== *)
(** * The chunking function *)
(* ================================================================== *)

Section Chunks.

Variable A : Type.

Lemma firstn_add (a b : nat) (l : list A) :
  firstn (a + b) l = firstn a l ++ firstn b (skipn a l).
Proof.
  revert l. induction a as [ |a IH]; intros [ |x l]; simpl; auto.
  - now rewrite firstn_nil.
  - now rewrite IH.
Qed.

(** The k-th chunk is the slice that starts at [k * n]. *)
Lemma chunks_eq (lst : list A) (n : nat) :
  chunks lst (S n) =
  Ok (map (fun k => firstn (S n) (skipn (k * S n) lst))
          (seq 0 ((List.length lst + S n - 1) / S n))).
Proof.
  unfold chunks, range0, slice. rewrite map_map. f_equal.
  apply map_ext. intro k. f_equal. lia.
Qed.

Lemma concat_slices (lst : list A) (n c : nat) :
  List.concat (map (fun k => firstn n (skipn (k * n) lst)) (seq 0 c)) = firstn (c * n) lst.
Proof.
  induction c as [ |c IH]; [reflexivity| ].
  rewrite seq_S, map_app, concat_app, IH. simpl.
  rewrite app_nil_r, <- firstn_add. f_equal. lia.
Qed.

(** The number of chunks covers the list, and not one chunk more. *)
Lemma chunk_count (len n : nat) :
  let c := (len + S n - 1) / S n in
  len <= c * S n /\ (0 < len -> 0 < c /\ (c - 1) * S n < len).
Proof.
  intro c.
  pose proof (Nat.div_mod (len + S n - 1) (S n) ltac:(lia)) as E.
  pose proof (Nat.mod_upper_bound (len + S n - 1) (S n) ltac:(lia)) as U.
  fold c in E. split; [nia| ]. intro Hpos.
  assert (0 < c) by (destruct c; [simpl in E; lia | lia]).
  split; [assumption| ].
  replace c with (S (c - 1)) in E by lia. nia.
Qed.

Lemma NoDup_concat_disjoint (cs : list (list A)) :
  NoDup (List.concat cs) ->
  forall i j, i < j -> j < List.length cs ->
  forall x, In x (nth i cs []) -> ~ In x (nth j cs []).
Proof.
  induction cs as [ |c cs IH]; simpl; intros ND i j Hij Hj x Hi; [lia| ].
  destruct j as [ |j]; [lia| ].
  destruct i as [ |i].
  - intro Hin.
    assert (Hx : In x (List.concat cs)).
    { apply in_concat. exists (nth j cs []). split; [apply nth_In; lia | assumption]. }
    clear - ND Hi Hx. induction c as [ |y c IHc]; [contradiction| ].
    simpl in ND. inversion ND as [ |? ? Hny ND']; subst.
    destruct Hi as [-> | Hi]; [apply Hny, in_or_app; now right | now apply IHc].
  - apply (IH (NoDup_app_remove_l _ _ ND) i j); [lia | lia | assumption].
Qed.

End Chunks.

Lemma nth_map_seq {B} (f : nat -> list B) (c i : nat) :
  i < c -> nth i (map f (seq 0 c)) [] = f i.
Proof.
  intro H. rewrite (nth_indep _ [] (f 0)) by now rewrite length_map, length_seq.
  rewrite map_nth, seq_nth by assumption. reflexivity.
Qed.

(** The chunks of a list, put end to end, are the list. *)
Lemma chunks_concat (A : Type) (lst : list A) (n : nat) :
  exists cs, chunks lst (S n) = Ok cs /\ List.concat cs = lst.
Proof.
  rewrite chunks_eq. eexists. split; [reflexivity| ].
  rewrite concat_slices. apply firstn_all2.
  exact (proj1 (chunk_count (List.length lst) n)).
Qed.

Lemma in_chunk_in_list {A} (l : list A) (n : nat) cs c x :
  chunks l n = Ok cs -> In c cs -> In x c -> In x l.
Proof.
  intros E Hc Hx. destruct n as [ |n]; [discriminate| ].
  destruct (chunks_concat l n) as (cs' & E' & Hcat).
  rewrite E in E'. injection E' as <-. rewrite <- Hcat. apply in_concat. eauto.
Qed.

Lemma in_list_in_chunk {A} (l : list A) (n : nat) cs x :
  chunks l n = Ok cs -> In x l -> exists c, In c cs /\ In x c.
Proof.
  intros E Hx. destruct n as [ |n]; [discriminate| ].
  destruct (chunks_concat l n) as (cs' & E' & Hcat).
  rewrite E in E'. injection E' as <-. rewrite <- Hcat in Hx.
  apply in_concat in Hx. destruct Hx as (c & Hc & Hx). eauto.
Qed.

(** Two chunks of a list without duplicates are the same chunk or share no
    element. *)
Lemma chunks_same_or_disjoint {A} (l : list A) (n : nat) cs c d :
  NoDup l -> chunks l n = Ok cs -> In c cs -> In d cs ->
  c = d \/ forall x, In x c -> ~ In x d.
Proof.
  intros ND E Hc Hd. destruct n as [ |n]; [discriminate| ].
  destruct (chunks_concat l n) as (cs' & E' & Hcat).
  rewrite E in E'. injection E' as <-. rewrite <- Hcat in ND.
  pose proof (@NoDup_concat_disjoint A cs ND) as Hdis.
  destruct (In_nth _ _ [] Hc) as (i & Hi & <-).
  destruct (In_nth _ _ [] Hd) as (j & Hj & <-).
  destruct (Nat.lt_trichotomy i j) as [Hlt | [-> | Hgt]].
  - right. intros x. now apply Hdis.
  - now left.
  - right. intros x Hx Hy. exact (Hdis j i Hgt Hi x Hy Hx).
Qed.

(** C3. For a positive batch size [B], [chunks] yields batches whose
    concatenation is the list itself, so that their union is the set of its
    elements; two batches at different positions share no element when the
    list has no duplicates; no batch is empty or longer than [B], and every
    batch but the last has exactly [B] elements. *)
Theorem chunks_partition (A : Type) (lst : list A) (B : nat) :
  0 < B ->
  exists cs,
    chunks lst B = Ok cs /\
    List.concat cs = lst /\
    (forall x, In x lst <-> exists c, In c cs /\ In x c) /\
    (NoDup lst ->
     forall i j, i < j -> j < List.length cs ->
     forall x, In x (nth i cs []) -> ~ In x (nth j cs [])) /\
    (forall i, i < List.length cs ->
       0 < List.length (nth i cs []) <= B /\
       (S i < List.length cs -> List.length (nth i cs []) = B)).
Proof.
  intro HB. destruct B as [ |n]; [lia| ].
  rewrite chunks_eq. eexists. split; [reflexivity| ].
  set (c := (List.length lst + S n - 1) / S n).
  destruct (chunk_count (List.length lst) n) as [Hcover Hlast]. fold c in Hcover, Hlast.
  assert (Hcat : List.concat (map (fun k => firstn (S n) (skipn (k * S n) lst)) (seq 0 c)) = lst).
  { rewrite concat_slices. apply firstn_all2. exact Hcover. }
  split; [exact Hcat| ]. split; [ |split].
  - intro x. rewrite <- Hcat at 1. rewrite in_concat.
    split; intros (l & H1 & H2); exists l; tauto.
  - intro ND. apply NoDup_concat_disjoint. now rewrite Hcat.
  - rewrite length_map, length_seq. intros i Hi.
    rewrite nth_map_seq by assumption.
    rewrite length_firstn, length_skipn.
    assert (0 < List.length lst).
    { destruct (Nat.eq_dec (List.length lst) 0) as [E|E]; [ |lia].
      assert (c = 0) by (subst c; rewrite E; apply Nat.div_small; lia). lia. }
    destruct (Hlast ltac:(assumption)) as [_ Hl].
    assert (H1 : i * S n <= (c - 1) * S n) by (apply Nat.mul_le_mono_r; lia).
    remember ((c - 1) * S n) as top eqn:Etop.
    remember (i * S n) as start eqn:Estart.
    split; [lia| ]. intro Hnext.
    assert (H2 : S i * S n <= (c - 1) * S n) by (apply Nat.mul_le_mono_r; lia).
    rewrite <- Etop in H2. change (S i * S n) with (S n + i * S n) in H2.
    rewrite <- Estart in H2. lia.
Qed.


(** C3 at work: seven identifiers in batches of three. *)
Lemma chunks_partition_witness :
  exists cs,
    chunks [1; 2; 3; 4; 5; 6; 7] 3 = Ok cs /\
    List.concat cs = [1; 2; 3; 4; 5; 6; 7] /\
    (forall x, In x [1; 2; 3; 4; 5; 6; 7] <-> exists c, In c cs /\ In x c) /\
    (NoDup [1; 2; 3; 4; 5; 6; 7] ->
     forall i j, i < j -> j < List.length cs ->
     forall x, In x (nth i cs []) -> ~ In x (nth j cs [])) /\
    (forall i, i < List.length cs ->
       0 < List.length (nth i cs []) <= 3 /\
       (S i < List.length cs -> List.length (nth i cs []) = 3)).
Proof. apply (@chunks_partition nat [1; 2; 3; 4; 5; 6; 7] 3). lia. Defined.

(* ================================================================== *)
(** * Reasoning about the state-and-error monad *)
(* ================================================================== *)

Lemma bind_inv {A B} (m : M A) (k : A -> M B) s r s' :
  bind m k s = (r, s') ->
  (exists a s1, m s = (Ok a, s1) /\ k a s1 = (r, s')) \/
  (exists e, m s = (Raise e, s') /\ r = Raise e).
Proof.
  unfold bind. destruct (m s) as [[a|e] s1]; intro H.
  - left. now exists a, s1.
  - right. exists e. inversion H; subst. auto.
Qed.

Lemma bind_ok {A B} (m : M A) (k : A -> M B) s a s1 :
  m s = (Ok a, s1) -> bind m k s = k a s1.
Proof. unfold bind. now intros ->. Qed.

Lemma preserves_bind {A B} P (m : M A) (k : A -> M B) :
  preserves P m -> (forall a, preserves P (k a)) -> preserves P (bind m k).
Proof.
  intros Hm Hk s r s' HP H.
  destruct (bind_inv _ _ _ H) as [(a & s1 & H1 & H2) | (e & H1 & _)].
  - eapply Hk; [eapply Hm; eassumption | eassumption].
  - eapply Hm; eassumption.
Qed.

Lemma preserves_lift {A} P (r : res A) : preserves P (lift r).
Proof. intros s r' s' HP H. unfold lift in H. now inversion H; subst. Qed.

Lemma preserves_ret {A} P (a : A) : preserves P (ret a).
Proof. intros s r' s' HP H. unfold ret in H. now inversion H; subst. Qed.

Lemma preserves_for_each {A} P (body : A -> M unit) (l : list A) :
  (forall a, In a l -> preserves P (body a)) -> preserves P (for_each body l).
Proof.
  induction l as [ |a l IH]; intro Hb; simpl.
  - apply preserves_ret.
  - apply preserves_bind; [apply Hb; now left | intros _; apply IH].
    intros b Hin. apply Hb. now right.
Qed.

(** What holds after a loop that returned: every element was handled by a
    body that returned, and what the body establishes for an element no
    later body undoes. *)
Lemma for_each_ok_all {A} (Q : A -> state -> Prop) (body : A -> M unit) (l : list A) :
  (forall a s s', In a l -> body a s = (Ok tt, s') -> Q a s') ->
  (forall a b s r s', In b l -> Q a s -> body b s = (r, s') -> Q a s') ->
  forall s s', for_each body l s = (Ok tt, s') -> forall a, In a l -> Q a s'.
Proof.
  intros Hest Hkeep. induction l as [ |b l IH]; intros s s' H a Hin; [contradiction| ].
  simpl in H. destruct (bind_inv _ _ _ H) as [([] & s1 & H1 & H2) | (e & _ & ?)]; [ |discriminate].
  assert (Hstable : forall a0, preserves (Q a0) (for_each body l)).
  { intro a0. apply preserves_for_each. intros c Hc t r t' HQ Ht.
    eapply Hkeep; [right; exact Hc | eassumption | eassumption]. }
  destruct Hin as [-> | Hin].
  - eapply Hstable; [ |eassumption]. eapply Hest; [now left | eassumption].
  - eapply (IH (fun a s s' Ha => Hest a s s' (or_intror Ha))
               (fun a b s r s' Hb => Hkeep a b s r s' (or_intror Hb))); eassumption.
Qed.

(** A loop returns when every body does, under an invariant. *)
Lemma for_each_returns {A} (R : state -> Prop) (body : A -> M unit) (l : list A) :
  (forall a s, In a l -> R s -> exists s', body a s = (Ok tt, s') /\ R s') ->
  forall s, R s -> exists s', for_each body l s = (Ok tt, s') /\ R s'.
Proof.
  induction l as [ |a l IH]; intros Hb s HR; simpl.
  - exists s. split; [reflexivity | assumption].
  - destruct (Hb a s (or_introl eq_refl) HR) as (s1 & H1 & HR1).
    erewrite bind_ok by exact H1.
    apply IH; [ |assumption]. intros b t Hin. apply Hb. now right.
Qed.

(* ================================================================== *)
(** * The record store *)
(* ================================================================== *)

Lemma getStructure_Some l id r :
  getStructure l id = Some r -> In r l /\ pdbid r = id.
Proof.
  induction l as [ |x l IH]; simpl; [discriminate| ].
  destruct (json_eqb (pdbid x) id) eqn:E.
  - intro H. inversion H; subst. apply json_eqb_eq in E. auto.
  - intro H. destruct (IH H). auto.
Qed.

Lemma getStructure_None l id :
  getStructure l id = None <-> ~ In id (stored_ids l).
Proof.
  induction l as [ |x l IH]; simpl; [tauto| ].
  destruct (json_eqb (pdbid x) id) eqn:E.
  - apply json_eqb_eq in E. split; [discriminate | intro H; exfalso; apply H; auto].
  - apply json_eqb_neq in E. rewrite IH. tauto.
Qed.

Lemma list_remove_ids_incl x l v :
  In v (stored_ids (list_remove x l)) -> In v (stored_ids l).
Proof.
  induction l as [ |y l IH]; simpl; [tauto| ].
  destruct (Structure_eqb y x); simpl; tauto.
Qed.

Lemma list_remove_keeps_others x l v :
  In v (stored_ids l) -> v <> pdbid x -> In v (stored_ids (list_remove x l)).
Proof.
  induction l as [ |y l IH]; simpl; [tauto| ].
  destruct (Structure_eqb y x) eqn:E; simpl.
  - apply Structure_eqb_eq in E. subst y. intros [H|H] Hne; [congruence | assumption].
  - tauto.
Qed.

Lemma list_remove_middle pre prior post :
  ~ In (pdbid prior) (stored_ids pre) ->
  list_remove prior (pre ++ prior :: post) = pre ++ post.
Proof.
  induction pre as [ |y pre IH]; simpl; intro Hn.
  - now rewrite (proj2 (Structure_eqb_eq prior prior) eq_refl).
  - destruct (Structure_eqb y prior) eqn:E.
    + apply Structure_eqb_eq in E. subst y. tauto.
    + rewrite IH; tauto.
Qed.

Lemma getStructure_middle pre prior post :
  ~ In (pdbid prior) (stored_ids pre) ->
  getStructure (pre ++ prior :: post) (pdbid prior) = Some prior.
Proof.
  induction pre as [ |y pre IH]; simpl; intro Hn.
  - now rewrite json_eqb_refl.
  - destruct (json_eqb (pdbid y) (pdbid prior)) eqn:E.
    + apply json_eqb_eq in E. tauto.
    + apply IH. tauto.
Qed.

Lemma updated_ids l r v :
  In v (stored_ids (updated l r)) <-> In v (stored_ids l) \/ v = pdbid r.
Proof.
  unfold updated, stored_ids. rewrite map_app, in_app_iff. simpl.
  destruct (getStructure l (pdbid r)) as [old| ] eqn:E.
  - destruct (getStructure_Some _ _ E) as [_ Hid].
    split.
    + intros [H|[H|[]]]; [left; eapply list_remove_ids_incl; exact H | now right].
    + intros [H| ->]; [ |now right; left].
      destruct (json_eqb v (pdbid r)) eqn:Ev.
      * apply json_eqb_eq in Ev. right. now left.
      * apply json_eqb_neq in Ev. left. apply list_remove_keeps_others; [exact H | congruence].
  - split; [intros [H|[H|[]]]; auto | intros [H| ->]; auto].
Qed.

Lemma update_store_eq r s :
  update_store r s =
  (Ok tt, mkState (updated (structureList s) r) (pdbsWithoutDetails s) (resolution_var s)
                  (structures_file s) (without_details_file s) (requests s)).
Proof.
  unfold update_store, updated, bind, get, set_structureList, modify, ret.
  destruct (getStructure (structureList s) (pdbid r)); reflexivity.
Qed.

Lemma NoDup_ids_split pre prior post :
  NoDup (stored_ids (pre ++ prior :: post)) ->
  NoDup (stored_ids (pre ++ post)) /\
  ~ In (pdbid prior) (stored_ids pre) /\ ~ In (pdbid prior) (stored_ids post).
Proof.
  unfold stored_ids. rewrite !map_app. simpl. intro ND.
  destruct (NoDup_remove _ _ _ ND) as [H1 H2]. rewrite in_app_iff in H2. tauto.
Qed.

Lemma NoDup_snoc {A} (l : list A) (x : A) :
  NoDup l -> ~ In x l -> NoDup (l ++ [x]).
Proof.
  intros ND Hn. apply NoDup_app; [assumption | constructor; [tauto | constructor] | ].
  intros a Ha [<- | []]. contradiction.
Qed.

(** C2. Lines 210-213 keep the store at one record per identifier.  On a
    store with at most one record per identifier the update returns, and the
    store it leaves again has at most one record per identifier; when a
    record [prior] with the identifier of the new record is present, exactly
    [prior] is removed, the records before and after it stay as they are and
    in their order, and the new record stands at the end, whole: it is the
    record the store now holds for the identifier.  Nothing else in the state
    changes. *)
Theorem insertion_replaces (s : state) (new : Structure) :
  NoDup (stored_ids (structureList s)) ->
  exists s',
    update_store new s = (Ok tt, s') /\
    NoDup (stored_ids (structureList s')) /\
    (forall pre prior post,
       structureList s = pre ++ prior :: post -> pdbid prior = pdbid new ->
       structureList s' = pre ++ post ++ [new]) /\
    (~ In (pdbid new) (stored_ids (structureList s)) ->
     structureList s' = structureList s ++ [new]) /\
    getStructure (structureList s') (pdbid new) = Some new /\
    pdbsWithoutDetails s' = pdbsWithoutDetails s /\
    structures_file s' = structures_file s /\
    without_details_file s' = without_details_file s.
Proof.
  intro ND. rewrite update_store_eq. eexists. split; [reflexivity| ].
  cbn [structureList pdbsWithoutDetails structures_file without_details_file].
  assert (Hrepl : forall pre prior post,
            structureList s = pre ++ prior :: post -> pdbid prior = pdbid new ->
            updated (structureList s) new = pre ++ post ++ [new]).
  { intros pre prior post E Hid. rewrite E in ND |- *.
    destruct (NoDup_ids_split _ _ _ ND) as (_ & Hpre & _).
    unfold updated. rewrite <- Hid, getStructure_middle by assumption.
    rewrite list_remove_middle by assumption. now rewrite app_assoc. }
  assert (Hnew : ~ In (pdbid new) (stored_ids (structureList s)) ->
            updated (structureList s) new = structureList s ++ [new]).
  { intro Hn. unfold updated. now rewrite (proj2 (getStructure_None _ _) Hn). }
  assert (Hshape : exists rest, updated (structureList s) new = rest ++ [new] /\
                     NoDup (stored_ids rest) /\ ~ In (pdbid new) (stored_ids rest)).
  { destruct (getStructure (structureList s) (pdbid new)) as [prior| ] eqn:E.
    - destruct (getStructure_Some _ _ E) as [Hin Hid].
      destruct (in_split _ _ Hin) as (pre & post & Esplit).
      exists (pre ++ post). rewrite (Hrepl _ _ _ Esplit Hid), app_assoc.
      rewrite Esplit in ND. destruct (NoDup_ids_split _ _ _ ND) as (ND' & Hpre & Hpost).
      split; [reflexivity| ]. split; [assumption| ].
      unfold stored_ids in *. rewrite map_app, in_app_iff, <- Hid. tauto.
    - apply getStructure_None in E. exists (structureList s).
      rewrite (Hnew E). auto. }
  destruct Hshape as (rest & Erest & NDrest & Hfresh).
  repeat split; try assumption.
  - rewrite Erest. unfold stored_ids. rewrite map_app. simpl.
    apply NoDup_snoc; assumption.
  - rewrite Erest. clear - Hfresh. induction rest as [ |y rest IH]; simpl.
    + now rewrite json_eqb_refl.
    + simpl in Hfresh. destruct (json_eqb (pdbid y) (pdbid new)) eqn:E.
      * apply json_eqb_eq in E. tauto.
      * apply IH. tauto.
Qed.

(* ================================================================== *)
(** * One entry of a response *)
(* ================================================================== *)

Lemma append_without_details_eq id s :
  append_without_details id s = (Ok tt, excluded_also id s).
Proof. reflexivity. Qed.

(** What running [build_record] can do: raise and leave the state as it is,
    or return with the record stored and [resolution] bound. *)
Lemma build_record_cases entry id crystalEntry det s r s' :
  build_record entry id crystalEntry det s = (r, s') ->
  (exists e, r = Raise e /\ s' = s) \/
  (exists meth f,
     r = Ok tt /\
     getitem crystalEntry "method" = Ok meth /\
     (resolution_expr entry = Ok f \/
      (exists e, resolution_expr entry = Raise e) /\ resolution_var s = Some f) /\
     let structure := mkStructure id (extract_pmcid entry) det [] (extract_pH crystalEntry)
                        (extract_temperature crystalEntry) meth [] (Some f) in
     s' = mkState (updated (structureList s) structure) (pdbsWithoutDetails s) (Some f)
                  (structures_file s) (without_details_file s) (requests s)).
Proof.
  unfold build_record, assign_resolution, read_resolution.
  unfold bind at 1. unfold lift at 1.
  destruct (getitem crystalEntry "method") as [meth|e] eqn:Em.
  2:{ intro H. inversion H; subst. left. eauto. }
  destruct (resolution_expr entry) as [f|e] eqn:Er.
  - unfold bind, set_resolution, modify, get, ret. cbn [resolution_var].
    rewrite update_store_eq. cbn. intro H. inversion H; subst.
    right. exists meth, f. repeat split; auto.
  - unfold bind, get, ret. destruct (resolution_var s) as [f| ] eqn:Ev.
    + rewrite update_store_eq. intro H. inversion H; subst.
      right. exists meth, f. repeat split; eauto.
      rewrite Ev. reflexivity.
    + unfold lift. intro H. inversion H; subst. left. eauto.
Qed.

(** The three ways through lines 168-180: an exception before any effect,
    a [continue] after the identifier was excluded, or the record is built,
    after the identifier was excluded when the details text is null. *)
Lemma process_entry_cases onlyDetails entry s r s' :
  process_entry onlyDetails entry s = (r, s') ->
  (exists e, r = Raise e /\ s' = s /\ continues onlyDetails entry = false) \/
  (exists id, r = Ok tt /\ getitem entry "rcsb_id" = Ok id /\
              s' = excluded_also id s /\ continues onlyDetails entry = true) \/
  (exists id grow crystalEntry det s1,
     getitem entry "rcsb_id" = Ok id /\
     getitem entry "exptl_crystal_grow" = Ok grow /\ is_None grow = false /\
     getitem0 grow = Ok crystalEntry /\
     getitem crystalEntry "pdbx_details" = Ok det /\
     continues onlyDetails entry = false /\
     (is_None det = false /\ s1 = s \/
      is_None det = true /\ onlyDetails = false /\ s1 = excluded_also id s) /\
     build_record entry id crystalEntry det s1 = (r, s')).
Proof.
  unfold process_entry, continues.
  unfold bind at 1. unfold lift at 1.
  destruct (getitem entry "rcsb_id") as [id|e] eqn:Eid.
  2:{ intro H; inversion H; subst. left. eauto. }
  unfold bind at 1. unfold lift at 1.
  destruct (getitem entry "exptl_crystal_grow") as [grow|e] eqn:Eg.
  2:{ intro H; inversion H; subst. left. eauto. }
  destruct (is_None grow) eqn:Ng.
  { rewrite append_without_details_eq. intro H; inversion H; subst.
    right; left. exists id. auto. }
  unfold bind at 1. unfold lift at 1.
  destruct (getitem0 grow) as [c|e] eqn:Ec; cbn [res_bind].
  2:{ intro H; inversion H; subst. left. eauto. }
  unfold bind at 1. unfold lift at 1.
  destruct (getitem c "pdbx_details") as [det|e] eqn:Ed.
  2:{ intro H; inversion H; subst. left. eauto. }
  destruct (is_None det) eqn:Nd; cbn [andb].
  - unfold bind at 1. rewrite append_without_details_eq.
    destruct onlyDetails.
    + unfold ret. intro H; inversion H; subst. right; left. exists id. auto.
    + intro H. right; right. exists id, grow, c, det, (excluded_also id s).
      rewrite Nd. repeat split; auto.
  - unfold bind at 1. unfold ret at 1.
    intro H. right; right. exists id, grow, c, det, s.
    rewrite Nd. repeat split; auto.
Qed.

(** An entry that [continue]s is handled the same way in every state: its
    identifier is excluded and nothing else changes. *)
Lemma process_entry_continues onlyDetails entry :
  continues onlyDetails entry = true ->
  exists id, getitem entry "rcsb_id" = Ok id /\
  forall s, process_entry onlyDetails entry s = (Ok tt, excluded_also id s).
Proof.
  unfold continues, process_entry.
  destruct (getitem entry "rcsb_id") as [id|e] eqn:Eid; [ |discriminate].
  destruct (getitem entry "exptl_crystal_grow") as [grow|e] eqn:Eg; [ |discriminate].
  intro H. exists id. split; [reflexivity| ]. intro s.
  unfold bind at 1. unfold lift at 1. unfold bind at 1. unfold lift at 1.
  destruct (is_None grow) eqn:Ng; [reflexivity| ].
  unfold bind at 1. unfold lift at 1.
  destruct (getitem0 grow) as [c|e] eqn:Ec; cbn [res_bind] in H; [ |discriminate].
  unfold bind at 1. unfold lift at 1.
  destruct (getitem c "pdbx_details") as [det|e] eqn:Ed; [ |discriminate].
  apply andb_true_iff in H. destruct H as [-> ->]. reflexivity.
Qed.

(** The effects of one iteration of the entry loop, whatever its outcome:
    the files and the request log are untouched, identifiers are only added,
    and the only identifier added is the one of the entry. *)
Lemma process_entry_effect onlyDetails entry s r s' :
  process_entry onlyDetails entry s = (r, s') ->
  structures_file s' = structures_file s /\
  without_details_file s' = without_details_file s /\
  requests s' = requests s /\
  (forall v, In v (pdbsWithoutDetails s') ->
             In v (pdbsWithoutDetails s) \/ getitem entry "rcsb_id" = Ok v) /\
  (forall v, In v (stored_ids (structureList s')) ->
             In v (stored_ids (structureList s)) \/ getitem entry "rcsb_id" = Ok v) /\
  incl (pdbsWithoutDetails s) (pdbsWithoutDetails s') /\
  incl (stored_ids (structureList s)) (stored_ids (structureList s')).
Proof.
  intro H. destruct (process_entry_cases _ _ _ H) as
    [(e & -> & -> & _) | [(id & -> & Eid & -> & _) |
     (id & grow & c & det & s1 & Eid & _ & _ & _ & _ & _ & Hs1 & Hb)]].
  - repeat split; auto using incl_refl.
  - cbn. repeat split; auto using incl_refl, incl_appl.
    intros v Hv. apply in_app_iff in Hv. destruct Hv as [Hv|[<-|[]]]; auto.
  - assert (Hmid : structures_file s1 = structures_file s /\
                   without_details_file s1 = without_details_file s /\
                   requests s1 = requests s /\
                   structureList s1 = structureList s /\
                   (forall v, In v (pdbsWithoutDetails s1) ->
                              In v (pdbsWithoutDetails s) \/ v = id) /\
                   incl (pdbsWithoutDetails s) (pdbsWithoutDetails s1)).
    { destruct Hs1 as [[_ ->] | (_ & _ & ->)]; cbn;
        repeat split; auto using incl_refl, incl_appl.
      intros v Hv. apply in_app_iff in Hv. destruct Hv as [Hv|[<-|[]]]; auto. }
    destruct Hmid as (M1 & M2 & M3 & M4 & M5 & M6).
    destruct (build_record_cases _ _ _ _ _ Hb) as
      [(e & -> & ->) | (meth & f & -> & _ & _ & ->)].
    + rewrite M1, M2, M3, M4. repeat split; auto using incl_refl.
      intros v Hv. destruct (M5 v Hv) as [ | ->]; auto.
    + cbn. rewrite M1, M2, M3, M4. repeat split; auto.
      * intros v Hv. destruct (M5 v Hv) as [ | ->]; auto.
      * intros v Hv. apply updated_ids in Hv. cbn in Hv. destruct Hv as [ | ->]; auto.
      * intros v Hv. apply updated_ids. now left.
Qed.

(** An entry that was handled without an exception either [continue]d, and
    the store is as before, or has its record in the store. *)
Lemma process_entry_ok onlyDetails entry s s' :
  process_entry onlyDetails entry s = (Ok tt, s') ->
  (continues onlyDetails entry = true /\ structureList s' = structureList s) \/
  (continues onlyDetails entry = false /\
   exists id, getitem entry "rcsb_id" = Ok id /\ In id (stored_ids (structureList s'))).
Proof.
  intro H. destruct (process_entry_cases _ _ _ H) as
    [(e & ? & _) | [(id & _ & Eid & -> & Hc) |
     (id & grow & c & det & s1 & Eid & _ & _ & _ & _ & Hc & Hs1 & Hb)]].
  - discriminate.
  - left. auto.
  - right. split; [assumption| ]. exists id. split; [assumption| ].
    destruct (build_record_cases _ _ _ _ _ Hb) as
      [(e & ? & _) | (meth & f & _ & _ & _ & ->)]; [discriminate| ].
    cbn. apply updated_ids. now right.
Qed.

(* ================================================================== *)
(** * One batch, and the whole run *)
(* ================================================================== *)

Section Run.

Variable set_iter : list string -> list string.
Variable remote : list string -> res json.

(** A batch is logged; then either nothing else happens (the request
    fails, the response has no ["data"], or lines 162-167 raise), or the
    entries of the response are handled in turn and, unless one of them
    raises, both lists are saved. *)
Lemma process_chunk_cases onlyDetails chunk s r s' :
  process_chunk remote onlyDetails chunk s = (r, s') ->
  (s' = logged chunk s /\
   ((exists e, r = Raise e) \/
    (r = Ok tt /\ exists response,
       remote chunk = Ok response /\ contains "data" response = Ok false))) \/
  (exists response r1 s1,
     remote chunk = Ok response /\ contains "data" response = Ok true /\
     for_each (process_entry onlyDetails) (entries_of response) (logged chunk s) = (r1, s1) /\
     ((exists e, r1 = Raise e /\ r = Raise e /\ s' = s1) \/
      (r1 = Ok tt /\ r = Ok tt /\ s' = saved s1))).
Proof.
  unfold process_chunk, loadPdbs.
  unfold bind at 1. unfold bind at 1. unfold modify at 1. unfold lift at 1.
  fold (logged chunk s).
  destruct (remote chunk) as [response|e] eqn:Er.
  2:{ intro H; inversion H; subst. left. eauto. }
  unfold bind at 1. unfold lift at 1.
  destruct (contains "data" response) as [[ | ]|e] eqn:Ec; cbn [negb].
  3:{ intro H; inversion H; subst. left. eauto. }
  2:{ unfold ret. intro H; inversion H; subst. left. split; [reflexivity| ].
      right. eauto. }
  unfold bind at 1. unfold lift at 1.
  destruct (getitem response "data") as [data|e] eqn:Ed; cbn [res_bind].
  2:{ intro H; inversion H; subst. left. eauto. }
  unfold bind at 1. unfold lift at 1.
  destruct (res_bind (getitem data "entries") iterate) as [entries|e] eqn:Ee.
  2:{ intro H; inversion H; subst. left. eauto. }
  unfold bind at 1.
  destruct (for_each (process_entry onlyDetails) entries (logged chunk s))
    as [[[]|e] s1] eqn:Ef.
  - unfold bind, get, writeStructures, writeJson, modify. cbn.
    intro H; inversion H; subst. right. exists response, (Ok tt), s1.
    split; [reflexivity| ]. split; [exact Ec| ].
    split; [unfold entries_of; rewrite Ec, Ed; cbn [res_bind]; rewrite Ee; exact Ef| ].
    right. repeat split.
  - intro H; inversion H; subst. right. exists response. do 2 eexists.
    split; [reflexivity| ]. split; [exact Ec| ].
    split; [unfold entries_of; rewrite Ec, Ed; cbn [res_bind]; rewrite Ee; exact Ef| ].
    left. eauto.
Qed.

(** Both lists are loaded, whatever the memory held, and the identifiers
    to fetch are the set difference in the order [set_iter] gives. *)
Lemma prepare_eq pdbList ignoreW ignoreC s :
  prepare set_iter pdbList ignoreW ignoreC s =
  (res_bind (set_difference pdbList
               (ignored_ids ignoreW ignoreC (from_file (structures_file s))
                            (from_file (without_details_file s))))
            (fun work => Ok (set_iter work)),
   loaded s).
Proof.
  unfold prepare, ignored_ids, loaded, stored_ids.
  unfold bind, set_resolution, set_structureList, set_pdbsWithoutDetails, modify,
    try_except, loadJson, loadStructures, get, ret, lift. cbn.
  destruct (without_details_file s) as [E0| ], (structures_file s) as [S0| ]; cbn;
    destruct ignoreW, ignoreC; cbn.
  all: try reflexivity.
  all: match goal with
       | |- context [set_difference ?a ?b] => destruct (set_difference a b)
       end; reflexivity.
Qed.

Lemma chunks_CHUNK_SIZE {A} (l : list A) : exists cs, chunks l CHUNK_SIZE = Ok cs.
Proof.
  destruct (chunks_concat l 999) as (cs & H & _). eauto.
Qed.

(** A run, step by step. *)
Lemma fetchStructures_cases pdbList onlyDetails ignoreW ignoreC s r s' :
  fetchStructures set_iter remote pdbList onlyDetails ignoreW ignoreC s = (r, s') ->
  let ignored := ignored_ids ignoreW ignoreC (from_file (structures_file s))
                             (from_file (without_details_file s)) in
  (exists e, set_difference pdbList ignored = Raise e /\ r = Raise e /\ s' = loaded s) \/
  (exists work cs r1 s1,
     set_difference pdbList ignored = Ok work /\
     chunks (set_iter work) CHUNK_SIZE = Ok cs /\
     for_each (process_chunk remote onlyDetails) cs (loaded s) = (r1, s1) /\
     ((exists e, r1 = Raise e /\ r = Raise e /\ s' = s1) \/
      (r1 = Ok tt /\ r = Ok (structureList s1) /\ s' = saved s1))).
Proof.
  unfold fetchStructures. unfold bind at 1. rewrite prepare_eq.
  destruct (set_difference _ _) as [work|e] eqn:Ew; cbn [res_bind].
  2:{ intro H; inversion H; subst. left. eauto. }
  destruct (chunks_CHUNK_SIZE (set_iter work)) as (cs & Ecs).
  unfold bind at 1. rewrite Ecs. unfold lift at 1.
  unfold bind at 1.
  destruct (for_each (process_chunk remote onlyDetails) cs (loaded s))
    as [[[]|e] s1] eqn:Ef.
  - unfold bind, get, writeStructures, writeJson, modify, ret. cbn.
    intro H; inversion H; subst. right. exists work, cs, (Ok tt), s1.
    split; [reflexivity| ]. split; [assumption| ]. split; [exact Ef| ].
    right. repeat split.
  - intro H; inversion H; subst. right. exists work, cs. do 2 eexists.
    split; [reflexivity| ]. split; [assumption| ]. split; [exact Ef| ].
    left. eauto.
Qed.

End Run.

(* ================================================================== *)
(** * The work set *)
(* ================================================================== *)

Lemma set_difference_spec pdbList ignored :
  (forall v, In v ignored -> hashable v = true) ->
  exists work,
    set_difference pdbList ignored = Ok work /\ NoDup work /\
    forall x, In x work <-> In x pdbList /\ ~ In (JStr x) ignored.
Proof.
  intro Hh. unfold set_difference.
  rewrite (proj2 (forallb_forall hashable ignored) Hh).
  eexists. split; [reflexivity| ]. split.
  - apply NoDup_filter, NoDup_nodup.
  - intro x. rewrite filter_In, nodup_In, negb_true_iff.
    split; intros [H1 H2]; (split; [assumption| ]).
    + intro Hin. assert (E : existsb (json_eqb (JStr x)) ignored = true).
      { apply existsb_exists. exists (JStr x). split; [assumption | apply json_eqb_refl]. }
      congruence.
    + destruct (existsb (json_eqb (JStr x)) ignored) eqn:E; [ |reflexivity].
      apply existsb_exists in E. destruct E as (v & Hv & E).
      apply json_eqb_eq in E. subst v. contradiction.
Qed.

Lemma set_difference_sound pdbList ignored work :
  set_difference pdbList ignored = Ok work ->
  forall x, In x work -> In x pdbList /\ ~ In (JStr x) ignored.
Proof.
  unfold set_difference. destruct (forallb hashable ignored) eqn:Eh; [ |discriminate].
  intro E. injection E as <-.
  destruct (@set_difference_spec pdbList ignored) as (work & Ew & _ & Hin).
  { now apply forallb_forall. }
  unfold set_difference in Ew. rewrite Eh in Ew. injection Ew as <-.
  intros x Hx. now apply Hin.
Qed.

Lemma in_ignored_ids ignoreW ignoreC stored excluded v :
  In v (ignored_ids ignoreW ignoreC stored excluded) <->
  (ignoreW = true /\ In v excluded) \/ (ignoreC = true /\ In v (stored_ids stored)).
Proof.
  unfold ignored_ids. rewrite in_app_iff.
  destruct ignoreW, ignoreC; simpl; intuition congruence.
Qed.

Lemma prepare_ok set_iter pdbList ignoreW ignoreC s work :
  set_difference pdbList
    (ignored_ids ignoreW ignoreC (from_file (structures_file s))
                 (from_file (without_details_file s))) = Ok work ->
  prepare set_iter pdbList ignoreW ignoreC s = (Ok (set_iter work), loaded s).
Proof. intro E. rewrite prepare_eq, E. reflexivity. Qed.

Lemma in_set_iter (set_iter : list string -> list string) (l : list string) (x : string) :
  (forall l, Permutation (set_iter l) l) -> In x (set_iter l) <-> In x l.
Proof.
  intro P. split; apply Permutation_in; [apply P | apply Permutation_sym, P].
Qed.

(** C4. The identifiers [fetchStructures] goes on to fetch (lines 114-142)
    are those of the universe that are not among the stored identifiers,
    which count only when [ignoreCompletedPdbs] is true, and not among the
    excluded identifiers, which count only when [ignorePdbsWithoutDetails]
    is true; each occurs once.  With [ignoreCompletedPdbs] false the store
    is loaded all the same and its keys remove nothing. *)
Theorem work_set_is_difference (set_iter : list string -> list string)
    (universe : list string) (ignorePdbsWithoutDetails ignoreCompletedPdbs : bool)
    (s : state) :
  (forall l, Permutation (set_iter l) l) ->
  let stored := from_file (structures_file s) in
  let excluded := from_file (without_details_file s) in
  (forall v, In v (ignored_ids ignorePdbsWithoutDetails ignoreCompletedPdbs stored excluded) ->
             hashable v = true) ->
  exists work,
    prepare set_iter universe ignorePdbsWithoutDetails ignoreCompletedPdbs s
      = (Ok work, loaded s) /\
    structureList (loaded s) = stored /\
    NoDup work /\
    forall x, In x work <->
      In x universe /\
      ~ (ignoreCompletedPdbs = true /\ In (JStr x) (stored_ids stored)) /\
      ~ (ignorePdbsWithoutDetails = true /\ In (JStr x) excluded).
Proof.
  intros Hperm stored excluded Hh.
  destruct (@set_difference_spec universe _ Hh) as (work & Ew & ND & Hin).
  exists (set_iter work). rewrite (@prepare_ok set_iter _ _ _ _ _ Ew).
  split; [reflexivity| ]. split; [reflexivity| ]. split.
  - eapply Permutation_NoDup; [apply Permutation_sym, Hperm | exact ND].
  - intro x. rewrite (@in_set_iter set_iter work x Hperm), Hin, in_ignored_ids. tauto.
Qed.

(* ================================================================== *)
(** * What a run sends, and what it can add *)
(* ================================================================== *)

(** The entry loop touches neither the files nor the request log. *)
Lemma entries_frame onlyDetails entries s r s' :
  for_each (process_entry onlyDetails) entries s = (r, s') ->
  structures_file s' = structures_file s /\
  without_details_file s' = without_details_file s /\
  requests s' = requests s.
Proof.
  intro H.
  refine (@preserves_for_each _
            (fun t => structures_file t = structures_file s /\
                      without_details_file t = without_details_file s /\
                      requests t = requests s)
            (process_entry onlyDetails) entries _ s r s' _ H); [ |auto].
  intros e _ t r' t' (H1 & H2 & H3) He.
  destruct (process_entry_effect _ _ _ He) as (E1 & E2 & E3 & _).
  repeat split; congruence.
Qed.

Section Sent.

Variable set_iter : list string -> list string.
Variable remote : list string -> res json.

Lemma process_chunk_requests onlyDetails chunk s r s' :
  process_chunk remote onlyDetails chunk s = (r, s') ->
  requests s' = requests s ++ [chunk].
Proof.
  intro H. destruct (process_chunk_cases _ _ _ _ H) as
    [[-> _] | (resp & r1 & s1 & _ & _ & Hf & Hr)]; [reflexivity| ].
  destruct (entries_frame _ _ _ Hf) as (_ & _ & E).
  destruct Hr as [(e & _ & _ & ->) | (_ & _ & ->)]; exact E.
Qed.

(** The batches a chunk loop sends are the first chunks, in order, and all
    of them when the loop returns. *)
Lemma batches_sent onlyDetails cs s r s' :
  for_each (process_chunk remote onlyDetails) cs s = (r, s') ->
  exists k, requests s' = requests s ++ firstn k cs /\
            (r = Ok tt -> firstn k cs = cs).
Proof.
  revert s. induction cs as [ |c cs IH]; intros s H; simpl in H.
  - unfold ret in H. inversion H; subst. exists 0. simpl. now rewrite app_nil_r.
  - destruct (bind_inv _ _ _ H) as [([] & s1 & H1 & H2) | (e & H1 & ->)].
    + destruct (IH _ H2) as (k & E & Hall). exists (S k).
      rewrite E, (process_chunk_requests _ _ _ H1), <- app_assoc. simpl.
      split; [reflexivity | intro Hr; now rewrite (Hall Hr)].
    + exists 1. rewrite (process_chunk_requests _ _ _ H1). simpl.
      split; [reflexivity | discriminate].
Qed.

(** The batches of a run are chunks of the work list of line 142. *)
Lemma run_requests pdbList onlyDetails ignoreW ignoreC s r s' :
  fetchStructures set_iter remote pdbList onlyDetails ignoreW ignoreC s = (r, s') ->
  exists sent,
    requests s' = requests s ++ sent /\
    forall batch, In batch sent ->
      exists work cs,
        set_difference pdbList
          (ignored_ids ignoreW ignoreC (from_file (structures_file s))
                       (from_file (without_details_file s))) = Ok work /\
        chunks (set_iter work) CHUNK_SIZE = Ok cs /\ In batch cs.
Proof.
  intro H. destruct (fetchStructures_cases _ _ _ _ _ _ _ H) as
    [(e & _ & _ & ->) | (work & cs & r1 & s1 & Ew & Ecs & Hf & Hr)].
  - exists []. cbn. rewrite app_nil_r. split; [reflexivity | contradiction].
  - destruct (batches_sent _ _ _ Hf) as (k & E & _).
    exists (firstn k cs). split.
    + destruct Hr as [(e & _ & _ & ->) | (_ & _ & ->)]; exact E.
    + intros batch Hb. exists work, cs. repeat split; try assumption.
      rewrite <- (firstn_skipn k cs). apply in_or_app. now left.
Qed.

End Sent.


(** C7. With [ignorePdbsWithoutDetails] true, no batch that a run sends to the
    remote service contains an identifier that the exclusion file lists when
    the run starts: the identifier is taken out of the work list before
    anything is fetched. *)
Theorem excluded_never_requested (set_iter : list string -> list string)
    (remote : list string -> res json) (universe : list string)
    (onlyDetails ignoreCompletedPdbs : bool) (s : state) (x : string)
    (r : res (list Structure)) (s' : state) :
  (forall l, Permutation (set_iter l) l) ->
  In (JStr x) (from_file (without_details_file s)) ->
  fetchStructures set_iter remote universe onlyDetails true ignoreCompletedPdbs s = (r, s') ->
  exists sent,
    requests s' = requests s ++ sent /\
    forall batch, In batch sent -> ~ In x batch.
Proof.
  intros Hperm Hx H.
  destruct (run_requests _ _ _ _ _ _ _ H) as (sent & E & Hsent).
  exists sent. split; [exact E| ]. intros batch Hb Hin.
  destruct (Hsent batch Hb) as (work & cs & Ew & Ecs & Hc).
  assert (Hw : In x work).
  { eapply Permutation_in; [apply Hperm| ]. eapply in_chunk_in_list; eassumption. }
  destruct (set_difference_sound _ _ Ew x Hw) as [_ Hn].
  apply Hn, in_ignored_ids. left. auto.
Qed.

(* ================================================================== *)
(** * Which identifiers a run can add *)
(* ================================================================== *)

Lemma within_entry okS okE onlyDetails entry :
  (forall id, getitem entry "rcsb_id" = Ok id -> okS id /\ okE id) ->
  preserves (within okS okE) (process_entry onlyDetails entry).
Proof.
  intros Hid s r s' (W1 & W2 & W3 & W4) H.
  destruct (process_entry_effect _ _ _ H) as (E1 & E2 & _ & A1 & A2 & _).
  unfold within. rewrite E1, E2. repeat split; try assumption.
  - intros v Hv. destruct (A2 v Hv) as [Hold|Hnew]; [auto | apply (Hid v Hnew)].
  - intros v Hv. destruct (A1 v Hv) as [Hold|Hnew]; [auto | apply (Hid v Hnew)].
Qed.

Lemma within_logged okS okE batch s :
  within okS okE s -> within okS okE (logged batch s).
Proof. intro H. exact H. Qed.

Lemma within_saved okS okE s :
  within okS okE s -> within okS okE (saved s).
Proof. intros (W1 & W2 & _ & _). repeat split; assumption. Qed.

Lemma within_loaded okS okE s :
  (forall v, In v (stored_ids (from_file (structures_file s))) -> okS v) ->
  (forall v, In v (from_file (without_details_file s)) -> okE v) ->
  within okS okE (loaded s).
Proof. intros H1 H2. repeat split; assumption. Qed.

Section Adds.

Variable set_iter : list string -> list string.
Variable remote : list string -> res json.
Variables okS okE : json -> Prop.

Lemma within_chunk onlyDetails batch :
  batch_allowed remote okS okE batch ->
  preserves (within okS okE) (process_chunk remote onlyDetails batch).
Proof.
  intros Hb s r s' W H.
  destruct (process_chunk_cases _ _ _ _ H) as
    [[-> _] | (resp & r1 & s1 & Er & Ec & Hf & Hr)].
  - now apply within_logged.
  - assert (W1 : within okS okE s1).
    { refine (@preserves_for_each _ (within okS okE) _ _ _ _ _ _
                (within_logged batch W) Hf).
      intros entry Hin. apply within_entry. intros id Hid.
      exact (Hb resp entry id Er Ec Hin Hid). }
    destruct Hr as [(e & _ & _ & ->) | (_ & _ & ->)];
      [assumption | now apply within_saved].
Qed.

Lemma within_run pdbList onlyDetails ignoreW ignoreC s r s' :
  fetchStructures set_iter remote pdbList onlyDetails ignoreW ignoreC s = (r, s') ->
  within okS okE (loaded s) ->
  (forall work cs batch,
     set_difference pdbList
       (ignored_ids ignoreW ignoreC (from_file (structures_file s))
                    (from_file (without_details_file s))) = Ok work ->
     chunks (set_iter work) CHUNK_SIZE = Ok cs -> In batch cs ->
     batch_allowed remote okS okE batch) ->
  within okS okE s'.
Proof.
  intros H W Hb.
  destruct (fetchStructures_cases _ _ _ _ _ _ _ H) as
    [(e & _ & _ & ->) | (work & cs & r1 & s1 & Ew & Ecs & Hf & Hr)];
    [assumption| ].
  assert (W1 : within okS okE s1).
  { refine (@preserves_for_each _ (within okS okE) _ _ _ _ _ _ W Hf).
    intros batch Hin. apply within_chunk. exact (Hb work cs batch Ew Ecs Hin). }
  destruct Hr as [(e & _ & _ & ->) | (_ & _ & ->)];
    [assumption | now apply within_saved].
Qed.

End Adds.


Lemma set_difference_ok pdbList ignored work :
  set_difference pdbList ignored = Ok work ->
  NoDup work /\ (forall v, In v ignored -> hashable v = true) /\
  forall x, In x work <-> In x pdbList /\ ~ In (JStr x) ignored.
Proof.
  intro E.
  assert (Hh : forall v, In v ignored -> hashable v = true).
  { unfold set_difference in E. destruct (forallb hashable ignored) eqn:Eh; [ |discriminate].
    now apply forallb_forall. }
  destruct (@set_difference_spec pdbList ignored Hh) as (work' & E' & ND & Hin).
  rewrite E in E'. injection E' as <-. auto.
Qed.

Section Skipped.

Variables set_iter set_iter' : list string -> list string.
Variable remote : list string -> res json.
Hypothesis set_iter_perm : forall l, Permutation (set_iter l) l.
Hypothesis set_iter'_perm : forall l, Permutation (set_iter' l) l.
Hypothesis remote_answers : answers_requested remote.

Variable universe : list string.
Variables onlyDetails ignoreW ignoreC : bool.
Variables (s s' : state) (r : res (list Structure)).
Variables (sent : list (list string)) (batch : list string) (response : json).

Hypothesis run : fetchStructures set_iter remote universe onlyDetails ignoreW ignoreC s = (r, s').
Hypothesis log : requests s' = requests s ++ sent.
Hypothesis was_sent : In batch sent.
Hypothesis answer : remote batch = Ok response.
Hypothesis no_data : contains "data" response = Ok false.

Let S0 := from_file (structures_file s).
Let E0 := from_file (without_details_file s).
Let okS (v : json) : Prop := In v (stored_ids S0) \/ exists y, v = JStr y /\ ~ In y batch.
Let okE (v : json) : Prop := In v E0 \/ exists y, v = JStr y /\ ~ In y batch.

Lemma skipped_batch_of_work :
  exists work cs,
    set_difference universe (ignored_ids ignoreW ignoreC S0 E0) = Ok work /\
    chunks (set_iter work) CHUNK_SIZE = Ok cs /\ In batch cs.
Proof.
  destruct (run_requests _ _ _ _ _ _ _ run) as (sent0 & E & Hsent).
  rewrite log in E. apply app_inv_head in E. subst sent0.
  exact (Hsent batch was_sent).
Qed.

Lemma skipped_run_within : within okS okE s'.
Proof.
  destruct skipped_batch_of_work as (work & cs & Ew & Ecs & Hb).
  destruct (set_difference_ok _ _ Ew) as (ND & _ & _).
  assert (ND' : NoDup (set_iter work)).
  { eapply Permutation_NoDup; [apply Permutation_sym, set_iter_perm | exact ND]. }
  refine (@within_run set_iter remote okS okE _ _ _ _ _ _ _ run _ _).
  - apply within_loaded; intros v Hv; left; exact Hv.
  - intros work' cs' c Ew' Ecs' Hc resp entry id Er Ec Hentry Hid.
    fold S0 E0 in Ew'. rewrite Ew in Ew'. injection Ew' as <-.
    rewrite Ecs in Ecs'. injection Ecs' as <-.
    pose proof remote_answers as RA. unfold answers_requested in RA.
    destruct (RA c resp entry id Er Hentry Hid) as (y & -> & Hy).
    destruct (@chunks_same_or_disjoint _ _ _ _ _ _ ND' Ecs Hc Hb) as [-> | Hdis].
    + rewrite answer in Er. injection Er as <-. rewrite no_data in Ec. discriminate.
    + split; right; exists y; split; auto.
Qed.

Lemma not_added_S x v :
  In x batch -> v = JStr x -> okS v -> In v (stored_ids S0).
Proof.
  intros Hx -> [H | (y & E & Hy)]; [exact H| ].
  injection E as <-. contradiction.
Qed.

Lemma not_added_E x v :
  In x batch -> v = JStr x -> okE v -> In v E0.
Proof.
  intros Hx -> [H | (y & E & Hy)]; [exact H| ].
  injection E as <-. contradiction.
Qed.

End Skipped.

(** A batch whose response has no ["data"] is skipped: the request is
    logged and nothing else changes, not even the files. *)
Lemma process_chunk_skips remote onlyDetails batch response t :
  remote batch = Ok response -> contains "data" response = Ok false ->
  process_chunk remote onlyDetails batch t = (Ok tt, logged batch t).
Proof.
  intros Er Ec. unfold process_chunk, loadPdbs, bind, modify, lift, ret.
  rewrite Er, Ec. reflexivity.
Qed.

(** C5, amended. A batch that was sent and whose response has no top-level
    ["data"] is skipped: its iteration changes nothing but the request log.
    When, in addition, the remote service answers only what it is asked
    (every entry of a response carries the identifier of a member of the
    batch it answers), the run, whether it returns or one of its statements
    or the remote call raises, has added none of the identifiers of that
    batch to the record store or to the exclusion list, in memory or in the
    files, and the next run with the same options, from the files as the run
    left them or as the entry point's handler saves them, has each of them
    in its work list.  Without the condition on the remote service the
    second part fails, as the run over a thousand and one identifiers
    shows. *)
Theorem skipped_batch_stays_pending
    (set_iter set_iter' : list string -> list string)
    (remote : list string -> res json) (universe : list string)
    (onlyDetails ignorePdbsWithoutDetails ignoreCompletedPdbs : bool)
    (s s' : state) (r : res (list Structure))
    (sent : list (list string)) (batch : list string) (response : json) :
  (forall l, Permutation (set_iter l) l) ->
  (forall l, Permutation (set_iter' l) l) ->
  answers_requested remote ->
  fetchStructures set_iter remote universe onlyDetails
    ignorePdbsWithoutDetails ignoreCompletedPdbs s = (r, s') ->
  requests s' = requests s ++ sent ->
  In batch sent ->
  remote batch = Ok response ->
  contains "data" response = Ok false ->
  (forall t, process_chunk remote onlyDetails batch t = (Ok tt, logged batch t)) /\
  forall x, In x batch ->
    (In (JStr x) (stored_ids (structureList s')) ->
     In (JStr x) (stored_ids (from_file (structures_file s)))) /\
    (In (JStr x) (pdbsWithoutDetails s') ->
     In (JStr x) (from_file (without_details_file s))) /\
    (In (JStr x) (stored_ids (from_file (structures_file s'))) ->
     In (JStr x) (stored_ids (from_file (structures_file s)))) /\
    (In (JStr x) (from_file (without_details_file s')) ->
     In (JStr x) (from_file (without_details_file s))) /\
    forall t, t = s' \/ t = saved s' ->
      exists work',
        prepare set_iter' universe ignorePdbsWithoutDetails ignoreCompletedPdbs t
          = (Ok work', loaded t) /\
        In x work'.
Proof.
  intros P1 P2 RA Hrun Hlog Hsent Er Ec. split.
  - intro t. now apply process_chunk_skips with (response := response).
  - intros x Hx.
    destruct (@skipped_run_within set_iter remote P1 RA universe _ _ _ s s' r sent batch
                response Hrun Hlog Hsent Er Ec) as (W1 & W2 & W3 & W4).
    split; [intro H; exact (@not_added_S s batch x _ Hx eq_refl (W1 _ H))| ].
    split; [intro H; exact (@not_added_E s batch x _ Hx eq_refl (W2 _ H))| ].
    split; [intro H; exact (@not_added_S s batch x _ Hx eq_refl (W3 _ H))| ].
    split; [intro H; exact (@not_added_E s batch x _ Hx eq_refl (W4 _ H))| ].
    intros t Ht.
    (* the identifier was in the work list of this run *)
    destruct (@skipped_batch_of_work set_iter remote universe _ _ _ s s' r sent batch
                Hrun Hlog Hsent) as (work & cs & Ew & Ecs & Hb).
    destruct (set_difference_ok _ _ Ew) as (_ & Hh & Hin).
    assert (Hxw : In x work).
    { apply (@in_set_iter set_iter work x P1). eapply in_chunk_in_list; eassumption. }
    apply Hin in Hxw. destruct Hxw as [Hu Hni]. rewrite in_ignored_ids in Hni.
    (* whatever the next run loads was there before, or is another identifier *)
    assert (WS : forall v, In v (stored_ids (from_file (structures_file t))) ->
                 In v (stored_ids (from_file (structures_file s))) \/
                 exists y, v = JStr y /\ ~ In y batch).
    { destruct Ht as [-> | ->]; [exact W3 | exact W1]. }
    assert (WE : forall v, In v (from_file (without_details_file t)) ->
                 In v (from_file (without_details_file s)) \/
                 exists y, v = JStr y /\ ~ In y batch).
    { destruct Ht as [-> | ->]; [exact W4 | exact W2]. }
    destruct (@set_difference_spec universe
                (ignored_ids ignorePdbsWithoutDetails ignoreCompletedPdbs
                   (from_file (structures_file t)) (from_file (without_details_file t))))
      as (work' & Ew' & _ & Hin').
    { intros v Hv. apply in_ignored_ids in Hv.
      destruct Hv as [[Hf Hv] | [Hf Hv]].
      - destruct (WE v Hv) as [H | (y & -> & _)]; [ |reflexivity].
        apply Hh, in_ignored_ids. left. auto.
      - destruct (WS v Hv) as [H | (y & -> & _)]; [ |reflexivity].
        apply Hh, in_ignored_ids. right. auto. }
    exists (set_iter' work'). split; [exact (@prepare_ok set_iter' _ _ _ _ _ Ew')| ].
    apply (@in_set_iter set_iter' work' x P2), Hin'.
    split; [exact Hu| ]. rewrite in_ignored_ids. intros [[Hf Hv] | [Hf Hv]].
    + apply Hni. left. split; [exact Hf| ].
      exact (@not_added_E s batch x _ Hx eq_refl (WE _ Hv)).
    + apply Hni. right. split; [exact Hf| ].
      exact (@not_added_S s batch x _ Hx eq_refl (WS _ Hv)).
Qed.

(* ================================================================== *)
(** * Fetching twice *)
(* ================================================================== *)

Lemma holds_entry ids excluded onlyDetails entry :
  preserves (holds ids excluded) (process_entry onlyDetails entry).
Proof.
  intros t r t' [H1 H2] H.
  destruct (process_entry_effect _ _ _ H) as (_ & _ & _ & _ & _ & I1 & I2).
  split; eapply incl_tran; eassumption.
Qed.

Lemma holds_chunk remote ids excluded onlyDetails batch :
  preserves (holds ids excluded) (process_chunk remote onlyDetails batch).
Proof.
  intros t r t' Hh H.
  destruct (process_chunk_cases _ _ _ _ H) as
    [[-> _] | (resp & r1 & t1 & _ & _ & Hf & Hr)]; [exact Hh| ].
  assert (H1 : holds ids excluded t1).
  { refine (@preserves_for_each _ (holds ids excluded) _ _ _ _ _ _ _ Hf); [ |exact Hh].
    intros e _. apply holds_entry. }
  destruct Hr as [(e & _ & _ & ->) | (_ & _ & ->)]; exact H1.
Qed.

(** The forward reading of a batch whose response has entries. *)
Lemma process_chunk_data remote onlyDetails batch response t t1 :
  remote batch = Ok response -> contains "data" response = Ok true ->
  (exists data, getitem response "data" = Ok data /\
                res_bind (getitem data "entries") iterate = Ok (entries_of response)) ->
  for_each (process_entry onlyDetails) (entries_of response) (logged batch t) = (Ok tt, t1) ->
  process_chunk remote onlyDetails batch t = (Ok tt, saved t1).
Proof.
  intros Er Ec (data & Ed & Ee) Hf.
  unfold process_chunk, loadPdbs.
  unfold bind at 1. unfold bind at 1. unfold modify at 1. unfold lift at 1.
  fold (logged batch t). rewrite Er.
  unfold bind at 1. unfold lift at 1. rewrite Ec. cbn [negb].
  unfold bind at 1. unfold lift at 1. rewrite Ed.
  unfold bind at 1. unfold lift at 1. rewrite Ee.
  unfold bind at 1. rewrite Hf. reflexivity.
Qed.

(** The forward reading of a run whose chunk loop returns. *)
Lemma fetchStructures_ok set_iter remote pdbList onlyDetails ignoreW ignoreC s work cs t :
  set_difference pdbList
    (ignored_ids ignoreW ignoreC (from_file (structures_file s))
                 (from_file (without_details_file s))) = Ok work ->
  chunks (set_iter work) CHUNK_SIZE = Ok cs ->
  for_each (process_chunk remote onlyDetails) cs (loaded s) = (Ok tt, t) ->
  fetchStructures set_iter remote pdbList onlyDetails ignoreW ignoreC s
    = (Ok (structureList t), saved t).
Proof.
  intros Ew Ecs Hf. unfold fetchStructures. unfold bind at 1.
  rewrite prepare_eq, Ew. cbn [res_bind].
  unfold bind at 1. rewrite Ecs. unfold lift at 1.
  unfold bind at 1. rewrite Hf. reflexivity.
Qed.

Section Catalog.

Variable catalog : string -> option json.

(** An entry of the catalog carries the identifier it is filed under. *)
Hypothesis echo : forall x e, catalog x = Some e -> getitem e "rcsb_id" = Ok (JStr x).

Lemma catalog_response batch :
  exists response,
    catalog_remote catalog batch = Ok response /\
    contains "data" response = Ok true /\
    (exists data, getitem response "data" = Ok data /\
                  res_bind (getitem data "entries") iterate = Ok (entries_of response)) /\
    forall e, In e (entries_of response) <-> exists x, In x batch /\ catalog x = Some e.
Proof.
  eexists. split; [reflexivity| ]. split; [reflexivity| ].
  split; [eexists; split; reflexivity| ].
  intro e. cbn. rewrite in_flat_map. split; intros (x & Hx & He); exists x.
  - destruct (catalog x) as [e'| ]; [ |contradiction].
    destruct He as [-> | []]. auto.
  - rewrite He. split; [assumption | now left].
Qed.

Lemma catalog_answers : answers_requested (catalog_remote catalog).
Proof.
  intros batch response entry id Er Hin Hid.
  destruct (catalog_response batch) as (resp & Er' & _ & _ & Hent).
  rewrite Er in Er'. injection Er' as <-.
  apply Hent in Hin. destruct Hin as (x & Hx & Hc).
  rewrite (echo Hc) in Hid. injection Hid as <-. eauto.
Qed.

End Catalog.

Section Twice.

Variable catalog : string -> option json.
Hypothesis echo : forall x e, catalog x = Some e -> getitem e "rcsb_id" = Ok (JStr x).
Variable onlyDetails : bool.

Let remote := catalog_remote catalog.

(** After an entry loop that returned, the record of every entry that
    did not [continue] is in the store. *)
Lemma entry_loop_stores entries t0 t :
  for_each (process_entry onlyDetails) entries t0 = (Ok tt, t) ->
  forall e id, In e entries -> continues onlyDetails e = false ->
    getitem e "rcsb_id" = Ok id -> In id (stored_ids (structureList t)).
Proof.
  intros Hf e id He Hc Hid.
  refine (@for_each_ok_all _
            (fun e t => continues onlyDetails e = false ->
                        forall id, getitem e "rcsb_id" = Ok id ->
                                   In id (stored_ids (structureList t)))
            (process_entry onlyDetails) entries _ _ t0 t Hf e He Hc id Hid).
  - intros a u u' _ Ha Hca id' Hid'.
    destruct (process_entry_ok _ _ _ Ha) as [[Hc' _] | (_ & id'' & Hid'' & Hin)];
      [congruence| ].
    rewrite Hid' in Hid''. injection Hid'' as <-. exact Hin.
  - intros a b u r u' _ HQ Hb Hca id' Hid'.
    destruct (process_entry_effect _ _ _ Hb) as (_ & _ & _ & _ & _ & _ & I).
    apply I. now apply HQ.
Qed.

(** After a chunk loop that returned, every identifier that was sent and
    whose catalog entry does not [continue] is in the store. *)
Lemma chunk_loop_stores cs t0 t :
  for_each (process_chunk remote onlyDetails) cs t0 = (Ok tt, t) ->
  forall c x e, In c cs -> In x c -> catalog x = Some e ->
    continues onlyDetails e = false -> In (JStr x) (stored_ids (structureList t)).
Proof.
  intros Hf c x e Hc Hx He Hne.
  refine (@for_each_ok_all _
            (fun c t => forall x e, In x c -> catalog x = Some e ->
                        continues onlyDetails e = false ->
                        In (JStr x) (stored_ids (structureList t)))
            (process_chunk remote onlyDetails) cs _ _ t0 t Hf c Hc x e Hx He Hne).
  - clear Hf c x e Hc Hx He Hne. intros c u u' _ Hrun x e Hx He Hne.
    destruct (catalog_response catalog c) as (resp & Er & Ec & _ & Hent).
    destruct (process_chunk_cases _ _ _ _ Hrun) as
      [[_ [(ex & ?) | (_ & resp' & Er' & Ec')]] | (resp' & r1 & u1 & Er' & _ & Hl & Hr)].
    + discriminate.
    + unfold remote in Er'. rewrite Er in Er'. injection Er' as <-. congruence.
    + unfold remote in Er'. rewrite Er in Er'. injection Er' as <-.
      destruct Hr as [(ex & _ & ? & _) | (-> & _ & ->)]; [discriminate| ].
      cbn [saved structureList].
      eapply entry_loop_stores; [exact Hl | |exact Hne |now apply echo].
      apply Hent. eauto.
  - clear Hf c x e Hc Hx He Hne. intros c b u r u' _ HQ Hb x e Hx He Hne.
    assert (Hh : holds (stored_ids (structureList u)) [] u)
      by (split; [apply incl_refl | intros v []]).
    destruct (@holds_chunk remote _ _ onlyDetails b u r u' Hh Hb) as [I _].
    apply I. now apply (HQ x e).
Qed.

(** A chunk loop over identifiers whose catalog entries all [continue]
    returns and leaves the store as it is. *)
Lemma chunk_loop_idle cs t0 :
  (forall c x e, In c cs -> In x c -> catalog x = Some e ->
                 continues onlyDetails e = true) ->
  exists t, for_each (process_chunk remote onlyDetails) cs t0 = (Ok tt, t) /\
            structureList t = structureList t0.
Proof.
  intro Hidle.
  apply (@for_each_returns _ (fun t => structureList t = structureList t0));
    [ |reflexivity].
  intros c u Hc Hu.
  destruct (catalog_response catalog c) as (resp & Er & Ec & Hd & Hent).
  destruct (@for_each_returns _ (fun t => structureList t = structureList t0)
              (process_entry onlyDetails) (entries_of resp)) with (s := logged c u)
    as (u1 & Hl & Hu1).
  - intros e v He Hv. apply Hent in He. destruct He as (x & Hx & He).
    destruct (process_entry_continues _ _ (Hidle c x e Hc Hx He)) as (id & _ & Hrun).
    exists (excluded_also id v). split; [apply Hrun | exact Hv].
  - exact Hu.
  - exists (saved u1). split; [ |exact Hu1].
    now apply process_chunk_data with (response := resp).
Qed.

End Twice.

(** C6, amended. When the remote service answers every identifier on its own
    (the entries of a response are the catalog entries of the identifiers of
    the batch, each carrying its identifier) and a run that skips completed
    identifiers returns, a second run with the same options, from the state
    the first one left and against the same catalog, returns the same record
    store and leaves the structure file as it was, in whatever order either
    run enumerates its work set. *)
Theorem refetch_same_store (catalog : string -> option json)
    (set_iter1 set_iter2 : list string -> list string) (universe : list string)
    (onlyDetails ignorePdbsWithoutDetails : bool)
    (s s1 : state) (S1 : list Structure) :
  (forall x e, catalog x = Some e -> getitem e "rcsb_id" = Ok (JStr x)) ->
  (forall l, Permutation (set_iter1 l) l) ->
  (forall l, Permutation (set_iter2 l) l) ->
  fetchStructures set_iter1 (catalog_remote catalog) universe onlyDetails
    ignorePdbsWithoutDetails true s = (Ok S1, s1) ->
  exists s2,
    fetchStructures set_iter2 (catalog_remote catalog) universe onlyDetails
      ignorePdbsWithoutDetails true s1 = (Ok S1, s2) /\
    structures_file s1 = Some S1 /\
    structures_file s2 = Some S1 /\
    structureList s2 = S1.
Proof.
  intros echo P1 P2 Hrun.
  set (remote := catalog_remote catalog) in *.
  set (S0 := from_file (structures_file s)).
  set (E0 := from_file (without_details_file s)).
  (* the first run *)
  destruct (fetchStructures_cases _ _ _ _ _ _ _ Hrun) as
    [(e & _ & ? & _) | (work1 & cs1 & r1 & t1 & Ew1 & Ecs1 & Hf1 & Hr1)]; [discriminate| ].
  destruct Hr1 as [(e & _ & ? & _) | (-> & ES1 & ->)]; [discriminate| ].
  injection ES1 as ->. fold S0 E0 in Ew1.
  destruct (set_difference_ok _ _ Ew1) as (_ & Hh1 & Hin1).
  assert (G1 : holds (stored_ids S0) E0 t1).
  { refine (@preserves_for_each _ (holds (stored_ids S0) E0) _ _ _ _ _ _ _ Hf1).
    - intros c _. apply holds_chunk.
    - split; apply incl_refl. }
  destruct G1 as [GS GE].
  assert (W : within (fun v => In v (stored_ids S0) \/ exists y, v = JStr y)
                     (fun v => In v E0 \/ exists y, v = JStr y) (saved t1)).
  { refine (@within_run set_iter1 remote _ _ _ _ _ _ _ _ _ Hrun _ _).
    - apply within_loaded; intros v Hv; left; exact Hv.
    - intros work cs c _ _ _ resp entry id Er _ Hentry Hid.
      destruct (@catalog_answers catalog echo c resp entry id Er Hentry Hid) as (y & -> & _).
      split; right; eauto. }
  destruct W as (WS & WE & _ & _). cbn [saved structureList pdbsWithoutDetails] in WS, WE.
  (* the work set of the second run *)
  destruct (@set_difference_spec universe
              (ignored_ids ignorePdbsWithoutDetails true (structureList t1)
                           (pdbsWithoutDetails t1)))
    as (work2 & Ew2 & _ & Hin2).
  { intros v Hv. apply in_ignored_ids in Hv. destruct Hv as [[Hf Hv] | [_ Hv]].
    - destruct (WE v Hv) as [H | (y & ->)]; [ |reflexivity].
      apply Hh1, in_ignored_ids. left. auto.
    - destruct (WS v Hv) as [H | (y & ->)]; [ |reflexivity].
      apply Hh1, in_ignored_ids. right. auto. }
  destruct (chunks_CHUNK_SIZE (set_iter2 work2)) as (cs2 & Ecs2).
  (* every entry the second run receives continues *)
  assert (Hidle : forall c x e, In c cs2 -> In x c -> catalog x = Some e ->
                                continues onlyDetails e = true).
  { intros c x e Hc Hx He.
    destruct (continues onlyDetails e) eqn:Hcont; [reflexivity| ]. exfalso.
    assert (Hx2 : In x work2).
    { eapply Permutation_in; [apply P2| ]. eapply in_chunk_in_list; eassumption. }
    apply Hin2 in Hx2. destruct Hx2 as [Hu Hn2]. rewrite in_ignored_ids in Hn2.
    assert (Hx1 : In x (set_iter1 work1)).
    { eapply Permutation_in; [apply Permutation_sym, P1| ]. apply Hin1.
      split; [exact Hu| ]. rewrite in_ignored_ids. intros [[Hf Hv] | [_ Hv]].
      - apply Hn2. left. split; [exact Hf | now apply GE].
      - apply Hn2. right. split; [reflexivity | now apply GS]. }
    destruct (@in_list_in_chunk _ _ _ _ _ Ecs1 Hx1) as (c1 & Hc1 & Hxc1).
    apply Hn2. right. split; [reflexivity| ].
    exact (@chunk_loop_stores catalog echo onlyDetails cs1 _ _ Hf1 c1 x e Hc1 Hxc1 He Hcont). }
  destruct (@chunk_loop_idle catalog onlyDetails cs2 (loaded (saved t1)) Hidle)
    as (t2 & Hf2 & Est).
  exists (saved t2).
  split; [ |cbn; rewrite Est; auto].
  rewrite <- Est at 1.
  exact (@fetchStructures_ok set_iter2 remote universe onlyDetails
           ignorePdbsWithoutDetails true (saved t1) work2 cs2 t2 Ew2 Ecs2 Hf2).
Qed.

(* ================================================================== *)
(** * The coerced fields *)
(* ================================================================== *)

(** The three numbers of the sample data are the floats 7.0, 298.0 and
    1.8, and they are what [float] makes of the strings. *)
Lemma sample_floats :
  float_of_string "7.0" = Some (float_of_decimal false 7 0) /\
  float_of_string "298" = Some (float_of_decimal false 298 0) /\
  float_of_string "1.8" = Some (float_of_decimal false 18 (-1)) /\
  float_of_decimal false 7 0 = S754_finite false 7881299347898368 (-50) /\
  float_of_decimal false 298 0 = S754_finite false 5242471441235968 (-44) /\
  float_of_decimal false 18 (-1) = S754_finite false 8106479329266893 (-52).
Proof. vm_compute. repeat split. Qed.

Lemma two_orders (set_iter : list string -> list string) (a b : string) :
  (forall l, Permutation (set_iter l) l) ->
  set_iter [a; b] = [a; b] \/ set_iter [a; b] = [b; a].
Proof.
  intro P. apply Permutation_length_2_inv, Permutation_sym, P.
Qed.

(** C8. Universe 1AAA, 1BBB; the remote service has no crystallization-growth
    data for 1AAA and, for 1BBB, details with pH "7.0", temp "298", method
    "Vapor Diffusion" and resolution list [1.8].  With [onlyDetails] true and
    nothing stored or excluded before, whatever the other two options and
    the order in which the work set is enumerated, the run returns a store
    of exactly one record, for 1BBB, with pH 7.0, temperature 298.0 and
    resolution 1.8; the exclusion list is exactly 1AAA; both are what the
    files hold afterwards. *)
Theorem example_run (set_iter : list string -> list string)
    (ignorePdbsWithoutDetails ignoreCompletedPdbs : bool)
    (sf : option (list Structure)) (wf : option (list json)) :
  (forall l, Permutation (set_iter l) l) ->
  from_file sf = [] -> from_file wf = [] ->
  exists s',
    fetchStructures set_iter (catalog_remote sample_catalog) ["1AAA"; "1BBB"]
      true ignorePdbsWithoutDetails ignoreCompletedPdbs (on_disk sf wf)
      = (Ok [record_1BBB], s') /\
    structureList s' = [record_1BBB] /\
    pdbsWithoutDetails s' = [JStr "1AAA"] /\
    structures_file s' = Some [record_1BBB] /\
    without_details_file s' = Some [JStr "1AAA"] /\
    pdbid record_1BBB = JStr "1BBB" /\
    pH record_1BBB = float_of_string "7.0" /\
    temperature record_1BBB = float_of_string "298.0" /\
    resolution record_1BBB = float_of_string "1.8".
Proof.
  intros P Es Ew.
  assert (Ework : set_difference ["1AAA"; "1BBB"]
                    (ignored_ids ignorePdbsWithoutDetails ignoreCompletedPdbs
                       (from_file (structures_file (on_disk sf wf)))
                       (from_file (without_details_file (on_disk sf wf))))
                  = Ok ["1AAA"; "1BBB"]).
  { cbn [on_disk structures_file without_details_file]. rewrite Es, Ew.
    destruct ignorePdbsWithoutDetails, ignoreCompletedPdbs; reflexivity. }
  assert (Eload : loaded (on_disk sf wf) = mkState [] [] None sf wf []).
  { unfold loaded. cbn [on_disk structures_file without_details_file requests].
    now rewrite Es, Ew. }
  destruct (@two_orders set_iter "1AAA" "1BBB" P) as [E | E].
  - set (t := snd (for_each (process_chunk (catalog_remote sample_catalog) true)
                     [["1AAA"; "1BBB"]] (mkState [] [] None sf wf []))).
    assert (Hf : for_each (process_chunk (catalog_remote sample_catalog) true)
                   [["1AAA"; "1BBB"]] (loaded (on_disk sf wf)) = (Ok tt, t))
      by (rewrite Eload; subst t; vm_compute; reflexivity).
    assert (Ecs : chunks (set_iter ["1AAA"; "1BBB"]) CHUNK_SIZE = Ok [["1AAA"; "1BBB"]])
      by (rewrite E; reflexivity).
    exists (saved t). rewrite (fetchStructures_ok _ _ _ _ _ _ _ Ework Ecs Hf).
    subst t. vm_compute. repeat split.
  - set (t := snd (for_each (process_chunk (catalog_remote sample_catalog) true)
                     [["1BBB"; "1AAA"]] (mkState [] [] None sf wf []))).
    assert (Hf : for_each (process_chunk (catalog_remote sample_catalog) true)
                   [["1BBB"; "1AAA"]] (loaded (on_disk sf wf)) = (Ok tt, t))
      by (rewrite Eload; subst t; vm_compute; reflexivity).
    assert (Ecs : chunks (set_iter ["1AAA"; "1BBB"]) CHUNK_SIZE = Ok [["1BBB"; "1AAA"]])
      by (rewrite E; reflexivity).
    exists (saved t). rewrite (fetchStructures_ok _ _ _ _ _ _ _ Ework Ecs Hf).
    subst t. vm_compute. repeat split.
Qed.

(** C1. The value [float] cannot convert leaves [resolution] as the previous
    entry set it, or unbound.  Entry 1CCC has no resolution list, so that
    line 204 raises; processed after 1BBB its record carries the resolution
    of 1BBB, 1.8, not null; processed first, reading [resolution] at line 208
    raises and the run ends with nothing stored.  The other three coerced
    fields of the same entry are what they are in 1BBB. *)
Theorem resolution_failure_not_null :
  resolution_expr entry_1CCC = Raise TypeError /\
  fst (fetchStructures same_order (catalog_remote sample_catalog)
         ["1BBB"; "1CCC"] true true true (on_disk None None))
    = Ok [record_1BBB; record_1CCC_after_1BBB] /\
  resolution record_1CCC_after_1BBB = resolution record_1BBB /\
  resolution record_1CCC_after_1BBB <> None /\
  fetchStructures same_order (catalog_remote sample_catalog)
    ["1CCC"; "1BBB"] true true true (on_disk None None)
    = (Raise UnboundLocalError, mkState [] [] None None None [["1CCC"; "1BBB"]]).
Proof.
  vm_compute. repeat split. discriminate.
Qed.

(** The other three coerced fields do default to null, each on its own. *)
Lemma other_fields_default_to_null (entry crystalEntry : json) :
  (forall e, res_bind (getitem entry "pubmed") (fun pubmed =>
             res_bind (getitem pubmed "rcsb_pubmed_central_id") slice_from3) = Raise e ->
             extract_pmcid entry = JNull) /\
  (forall e, res_bind (getitem crystalEntry "pH") py_float = Raise e ->
             extract_pH crystalEntry = None) /\
  (forall e, res_bind (getitem crystalEntry "temp") py_float = Raise e ->
             extract_temperature crystalEntry = None).
Proof.
  unfold extract_pmcid, extract_pH, extract_temperature, or_None.
  repeat split; intros e ->; reflexivity.
Qed.

(** C9, as stated, fails: the linked-publication id "12345678" of entry 1DDD
    does not start with "PMC", and the record stored for 1DDD holds
    "45678". *)
Lemma pmcid_without_prefix_is_cut :
  getitem entry_1DDD "pubmed" = Ok (JDict [("rcsb_pubmed_central_id", JStr "12345678")]) /\
  fst (fetchStructures same_order (catalog_remote sample_catalog)
         ["1DDD"] true true true (on_disk None None)) = Ok [record_1DDD] /\
  pmcid record_1DDD = JStr "45678" /\
  pmcid record_1DDD <> JStr "12345678".
Proof.
  vm_compute. repeat split. discriminate.
Qed.

Lemma drop_prefix (t : string) : drop 3 ("PMC" ++ t) = t.
Proof. reflexivity. Qed.

(** C9, amended. The stored publication id is the remote value without its
    first three characters, whatever they are: a string loses its first
    three characters (all of them when it is shorter), so that "PMC" followed
    by [t] becomes [t]; a list loses its first three elements; anything else,
    a missing key or a null among them, gives null.  The record that
    [build_record] puts at the end of the store carries exactly this
    value. *)
Theorem pmcid_drops_three_characters (entry : json) :
  extract_pmcid entry =
    match getitem entry "pubmed" with
    | Ok pubmed =>
        match getitem pubmed "rcsb_pubmed_central_id" with
        | Ok (JStr v) => JStr (drop 3 v)
        | Ok (JList l) => JList (skipn 3 l)
        | _ => JNull
        end
    | Raise _ => JNull
    end /\
  (forall t, drop 3 ("PMC" ++ t) = t) /\
  (forall id crystalEntry det s,
     match build_record entry id crystalEntry det s with
     | (Ok _, s') =>
         exists rest structure,
           structureList s' = rest ++ [structure] /\
           pdbid structure = id /\ pmcid structure = extract_pmcid entry
     | (Raise _, _) => True
     end).
Proof.
  split; [ |split].
  - unfold extract_pmcid.
    destruct (getitem entry "pubmed") as [pubmed|e]; cbn [res_bind]; [ |reflexivity].
    destruct (getitem pubmed "rcsb_pubmed_central_id") as [[ | | | |v|l|items]|e];
      reflexivity.
  - exact drop_prefix.
  - intros id c det s.
    destruct (build_record entry id c det s) as [[[]|e] s'] eqn:Hb; [ |exact I].
    destruct (build_record_cases _ _ _ _ _ Hb) as
      [(e & ? & _) | (meth & f & _ & _ & _ & ->)]; [discriminate| ].
    cbn [structureList]. unfold updated. do 2 eexists.
    split; [reflexivity| ]. split; reflexivity.
Qed.

(* ================================================================== *)
(** * The exclusion list *)
(* ================================================================== *)

(** C10. The exclusion list is only ever appended to, and nothing looks for
    the identifier first: whenever the crystallization-growth data of an
    entry is absent, or the details text of its first condition is null, the
    iteration leaves the list with the identifier of the entry added at the
    end, whatever the list held and however the iteration ends.  So the list
    can hold an identifier twice: with 1AAA in the exclusion file and
    [ignorePdbsWithoutDetails] false, 1AAA is fetched again and the file
    then lists it twice. *)
Theorem exclusion_list_keeps_duplicates :
  (forall onlyDetails entry id grow s r s',
     getitem entry "rcsb_id" = Ok id ->
     getitem entry "exptl_crystal_grow" = Ok grow ->
     (is_None grow = true \/
      exists crystalEntry det,
        getitem0 grow = Ok crystalEntry /\
        getitem crystalEntry "pdbx_details" = Ok det /\ is_None det = true) ->
     process_entry onlyDetails entry s = (r, s') ->
     pdbsWithoutDetails s' = pdbsWithoutDetails s ++ [id]) /\
  (exists s',
     fetchStructures same_order (catalog_remote sample_catalog) ["1AAA"]
       true false true (on_disk None (Some [JStr "1AAA"])) = (Ok [], s') /\
     requests s' = [["1AAA"]] /\
     without_details_file s' = Some [JStr "1AAA"; JStr "1AAA"]).
Proof.
  split.
  - intros onlyDetails entry id grow s r s'.
    intros Hid Hg Hcase. unfold process_entry.
    unfold bind at 1. unfold lift at 1. rewrite Hid.
    unfold bind at 1. unfold lift at 1. rewrite Hg.
    destruct (is_None grow) eqn:Ng.
    { rewrite append_without_details_eq. intro H. injection H as _ <-. reflexivity. }
    destruct Hcase as [? | (c & det & Hc & Hd & Nd)]; [discriminate| ].
    unfold bind at 1. unfold lift at 1. rewrite Hc.
    unfold bind at 1. unfold lift at 1. rewrite Hd, Nd. cbn [andb].
    unfold bind at 1. rewrite append_without_details_eq.
    destruct onlyDetails.
    + unfold ret. intro H. injection H as _ <-. reflexivity.
    + intro Hb. destruct (build_record_cases _ _ _ _ _ Hb) as
        [(e & _ & ->) | (meth & f & _ & _ & _ & ->)]; reflexivity.
  - eexists. split; [vm_compute; reflexivity| ]. split; reflexivity.
Qed.

(* ================================================================== *)
(** * Fetching twice from a remote service that cuts its answers *)
(* ================================================================== *)

(** C6, as stated, fails.  The remote service is the same in both runs and
    returns at most one entry per response.  The first run over 1BBB and
    1DDD stores 1BBB; the second, from the state the first one left, asks
    for 1DDD alone, gets its entry and stores it: the two record stores
    differ. *)
Lemma refetch_changes_store :
  fetchStructures same_order (first_entry_only sample_catalog)
    ["1BBB"; "1DDD"] true true true (on_disk None None)
    = (Ok [record_1BBB], after_cut_run) /\
  fst (fetchStructures same_order (first_entry_only sample_catalog)
         ["1BBB"; "1DDD"] true true true after_cut_run)
    = Ok [record_1BBB; record_1DDD] /\
  [record_1BBB] <> [record_1BBB; record_1DDD].
Proof.
  split; [vm_compute; reflexivity| ]. split; [vm_compute; reflexivity| ].
  discriminate.
Qed.

(* ================================================================== *)
(** * A skipped batch and a response that answers something else *)
(* ================================================================== *)

(** C5, as stated, fails.  The universe has a thousand and one identifiers,
    so the run sends two batches.  The first, of a thousand, is answered
    without ["data"] and skipped.  The response to the second carries an
    entry whose identifier, 0000, belongs to the first batch: the run
    returns with 0000 stored, in memory and in the file, and the next run
    with the same options no longer has 0000 in its work list. *)
Lemma skipped_batch_gets_stored :
  fetchStructures same_order answers_0000 many_ids true true true (on_disk None None)
    = (Ok [full_record "0000"], after_stray_entry) /\
  requests after_stray_entry = [firstn CHUNK_SIZE many_ids; skipn CHUNK_SIZE many_ids] /\
  In "0000" (firstn CHUNK_SIZE many_ids) /\
  answers_0000 (firstn CHUNK_SIZE many_ids) = Ok error_document /\
  contains "data" error_document = Ok false /\
  structureList after_stray_entry = [full_record "0000"] /\
  structures_file after_stray_entry = Some [full_record "0000"] /\
  exists work',
    prepare same_order many_ids true true after_stray_entry
      = (Ok work', loaded after_stray_entry) /\
    ~ In "0000" work'.
Proof.
  split; [vm_compute; reflexivity| ].
  split; [vm_compute; reflexivity| ].
  split; [left; reflexivity| ].
  split; [vm_compute; reflexivity| ].
  split; [reflexivity| ].
  split; [reflexivity| ].
  split; [reflexivity| ].
  exists (skipn 1 many_ids). split; [vm_compute; reflexivity| ].
  intro H.
  assert (E : existsb (String.eqb "0000") (skipn 1 many_ids) = false)
    by (vm_compute; reflexivity).
  assert (T : existsb (String.eqb "0000") (skipn 1 many_ids) = true)
    by (apply existsb_exists; exists "0000"; split; [exact H | apply String.eqb_refl]).
  congruence.
Qed.

(* ================================================================== *)
(** * The theorems at work on the sample data *)
(* ================================================================== *)

Lemma sample_catalog_echo (x : string) (e : json) :
  sample_catalog x = Some e -> getitem e "rcsb_id" = Ok (JStr x).
Proof.
  unfold sample_catalog.
  repeat (destruct (String.eqb x _) eqn:E;
          [apply String.eqb_eq in E; subst x; intro H; injection H as <-; reflexivity| ];
          clear E).
  discriminate.
Defined.

Lemma skips_full_batch_answers : answers_requested skips_full_batch.
Proof.
  intros batch response entry id. unfold skips_full_batch.
  destruct (Nat.eqb (List.length batch) CHUNK_SIZE).
  - intro H. injection H as <-. intros [].
  - apply (@catalog_answers (fun x => Some (full_entry x))).
    intros x e H. injection H as <-. reflexivity.
Defined.

(** C2 at work: a new record for 1BBB takes the place of the old one in a
    store of three. *)
Lemma insertion_replaces_witness :
  NoDup (stored_ids (structureList sample_store)) /\
  exists s',
    update_store record_1BBB_again sample_store = (Ok tt, s') /\
    NoDup (stored_ids (structureList s')) /\
    (forall pre prior post,
       structureList sample_store = pre ++ prior :: post ->
       pdbid prior = pdbid record_1BBB_again ->
       structureList s' = pre ++ post ++ [record_1BBB_again]) /\
    (~ In (pdbid record_1BBB_again) (stored_ids (structureList sample_store)) ->
     structureList s' = structureList sample_store ++ [record_1BBB_again]) /\
    getStructure (structureList s') (pdbid record_1BBB_again) = Some record_1BBB_again /\
    pdbsWithoutDetails s' = pdbsWithoutDetails sample_store /\
    structures_file s' = structures_file sample_store /\
    without_details_file s' = without_details_file sample_store.
Proof.
  assert (ND : NoDup (stored_ids (structureList sample_store))).
  { cbn. repeat constructor; cbn; intuition discriminate. }
  split; [exact ND | apply (@insertion_replaces sample_store record_1BBB_again ND)].
Defined.

(** C4 at work: 1BBB is stored and 1AAA excluded, both are skipped. *)
Lemma work_set_is_difference_witness :
  exists work,
    prepare same_order ["1AAA"; "1BBB"; "1CCC"; "1CCC"] true true
      (on_disk (Some [record_1BBB]) (Some [JStr "1AAA"]))
      = (Ok work, loaded (on_disk (Some [record_1BBB]) (Some [JStr "1AAA"]))) /\
    structureList (loaded (on_disk (Some [record_1BBB]) (Some [JStr "1AAA"]))) = [record_1BBB] /\
    NoDup work /\
    forall x, In x work <->
      In x ["1AAA"; "1BBB"; "1CCC"; "1CCC"] /\
      ~ (true = true /\ In (JStr x) (stored_ids [record_1BBB])) /\
      ~ (true = true /\ In (JStr x) [JStr "1AAA"]).
Proof.
  apply (@work_set_is_difference same_order ["1AAA"; "1BBB"; "1CCC"; "1CCC"] true true
           (on_disk (Some [record_1BBB]) (Some [JStr "1AAA"]))).
  - intro l. apply Permutation_refl.
  - intros v Hv. cbn in Hv. destruct Hv as [<- | [<- | []]]; reflexivity.
Defined.

(** C5 at work: of the two batches of the run the first, of a thousand, is
    answered with an error document, and the second stores 1000; every
    identifier of the first stays pending. *)
Lemma skipped_batch_stays_pending_witness :
  (forall t, process_chunk skips_full_batch true (firstn CHUNK_SIZE many_ids) t
             = (Ok tt, logged (firstn CHUNK_SIZE many_ids) t)) /\
  forall x, In x (firstn CHUNK_SIZE many_ids) ->
    (In (JStr x) (stored_ids (structureList after_skipped_batch)) ->
     In (JStr x) (stored_ids (from_file (structures_file (on_disk None None))))) /\
    (In (JStr x) (pdbsWithoutDetails after_skipped_batch) ->
     In (JStr x) (from_file (without_details_file (on_disk None None)))) /\
    (In (JStr x) (stored_ids (from_file (structures_file after_skipped_batch))) ->
     In (JStr x) (stored_ids (from_file (structures_file (on_disk None None))))) /\
    (In (JStr x) (from_file (without_details_file after_skipped_batch)) ->
     In (JStr x) (from_file (without_details_file (on_disk None None)))) /\
    forall t, t = after_skipped_batch \/ t = saved after_skipped_batch ->
      exists work',
        prepare same_order many_ids true true t = (Ok work', loaded t) /\
        In x work'.
Proof.
  apply (@skipped_batch_stays_pending same_order same_order skips_full_batch
           many_ids true true true (on_disk None None) after_skipped_batch
           (Ok [full_record "1000"])
           [firstn CHUNK_SIZE many_ids; skipn CHUNK_SIZE many_ids]
           (firstn CHUNK_SIZE many_ids) error_document).
  - intro l. apply Permutation_refl.
  - intro l. apply Permutation_refl.
  - exact skips_full_batch_answers.
  - vm_compute. reflexivity.
  - vm_compute. reflexivity.
  - left. reflexivity.
  - vm_compute. reflexivity.
  - reflexivity.
Defined.

(** C6 at work: a second run against the sample catalog changes nothing. *)
Lemma refetch_same_store_witness :
  exists s2,
    fetchStructures same_order (catalog_remote sample_catalog) ["1AAA"; "1BBB"]
      true true true after_sample_run = (Ok [record_1BBB], s2) /\
    structures_file after_sample_run = Some [record_1BBB] /\
    structures_file s2 = Some [record_1BBB] /\
    structureList s2 = [record_1BBB].
Proof.
  apply (@refetch_same_store sample_catalog same_order same_order ["1AAA"; "1BBB"]
           true true (on_disk None None) after_sample_run [record_1BBB]).
  - exact sample_catalog_echo.
  - intro l. apply Permutation_refl.
  - intro l. apply Permutation_refl.
  - vm_compute. reflexivity.
Defined.

(** C7 at work: 1AAA is in the exclusion file and is not asked for. *)
Lemma excluded_never_requested_witness :
  exists sent,
    requests (snd (fetchStructures same_order (catalog_remote sample_catalog)
                     ["1AAA"; "1BBB"] true true true
                     (on_disk None (Some [JStr "1AAA"]))))
      = requests (on_disk None (Some [JStr "1AAA"])) ++ sent /\
    forall batch, In batch sent -> ~ In "1AAA" batch.
Proof.
  apply (@excluded_never_requested same_order (catalog_remote sample_catalog)
           ["1AAA"; "1BBB"] true true (on_disk None (Some [JStr "1AAA"])) "1AAA"
           (fst (fetchStructures same_order (catalog_remote sample_catalog)
                   ["1AAA"; "1BBB"] true true true
                   (on_disk None (Some [JStr "1AAA"]))))).
  - intro l. apply Permutation_refl.
  - simpl. auto.
  - apply surjective_pairing.
Defined.

(** C8 at work, in the order of the universe. *)
Lemma example_run_witness :
  exists s',
    fetchStructures same_order (catalog_remote sample_catalog) ["1AAA"; "1BBB"]
      true true true (on_disk None None) = (Ok [record_1BBB], s') /\
    structureList s' = [record_1BBB] /\
    pdbsWithoutDetails s' = [JStr "1AAA"] /\
    structures_file s' = Some [record_1BBB] /\
    without_details_file s' = Some [JStr "1AAA"] /\
    pdbid record_1BBB = JStr "1BBB" /\
    pH record_1BBB = float_of_string "7.0" /\
    temperature record_1BBB = float_of_string "298.0" /\
    resolution record_1BBB = float_of_string "1.8".
Proof.
  apply (@example_run same_order true true None None).
  - intro l. apply Permutation_refl.
  - reflexivity.
  - reflexivity.
Defined.

(** C10 at work: entry 1AAA has no crystallization-growth data. *)
Lemma exclusion_list_keeps_duplicates_witness :
  pdbsWithoutDetails (snd (process_entry true entry_1AAA sample_store))
  = pdbsWithoutDetails sample_store ++ [JStr "1AAA"].
Proof.
  apply (proj1 exclusion_list_keeps_duplicates true entry_1AAA (JStr "1AAA") JNull
           sample_store (fst (process_entry true entry_1AAA sample_store))).
  - reflexivity.
  - reflexivity.
  - left. reflexivity.
  - apply surjective_pairing.
Defined.

(* ================================================================== *)
(** * Remarks on the model *)
(* ================================================================== *)

(** [list.remove] compares with [==], which for objects of a class that
    does not define it is identity.  The record [getStructure] returns is
    the first one with the identifier, and removing the first record equal
    to it field by field removes that very occurrence. *)
Lemma list_remove_found (l : list Structure) (id : json) (found : Structure) :
  getStructure l id = Some found ->
  exists pre post,
    l = pre ++ found :: post /\
    (forall y, In y pre -> pdbid y <> id) /\
    list_remove found l = pre ++ post.
Proof.
  induction l as [ |y l IH]; simpl; [discriminate| ].
  destruct (json_eqb (pdbid y) id) eqn:E.
  - intro H. injection H as <-. exists [], l. simpl.
    rewrite (proj2 (Structure_eqb_eq y y) eq_refl). repeat split. intros z [].
  - intro H. destruct (IH H) as (pre & post & -> & Hpre & Hrm).
    apply json_eqb_neq in E. destruct (getStructure_Some _ _ H) as [_ Hid].
    exists (y :: pre), post. simpl.
    destruct (Structure_eqb y found) eqn:Ey.
    + apply Structure_eqb_eq in Ey. subst y. contradiction.
    + rewrite Hrm. repeat split. intros z [<- | Hz]; auto.
Qed.

(** When the first run is cut short by an exception, a second run may well
    add to the store, even against a catalog: entry 1CCC comes first and
    line 208 raises, the handler of the entry point saves two empty lists,
    and a second run that happens to enumerate 1BBB first stores both. *)
Lemma refetch_after_abort_changes_store :
  main same_order (catalog_remote sample_catalog) ["1CCC"; "1BBB"] (on_disk None None)
    = (Ok tt, mkState [] [] None (Some []) (Some []) [["1CCC"; "1BBB"]]) /\
  fst (fetchStructures (@rev string) (catalog_remote sample_catalog) ["1CCC"; "1BBB"]
         true true true (mkState [] [] None (Some []) (Some []) [["1CCC"; "1BBB"]]))
    = Ok [record_1BBB; record_1CCC_after_1BBB].
Proof. split; vm_compute; reflexivity. Qed.

(* ================================================================== *)
(** * Further properties: one entry *)
(* ================================================================== *)

Lemma getitem_not_unbound v k : getitem v k <> Raise UnboundLocalError.
Proof.
  destruct v; simpl; try discriminate. destruct (lookup k items); discriminate.
Qed.

Lemma getitem0_not_unbound v : getitem0 v <> Raise UnboundLocalError.
Proof.
  destruct v as [ | | | |[ |c s]|[ |x l]|items]; simpl; discriminate.
Qed.

(** [build_record], outcome by outcome: an exception leaves the state as it
    was, and [UnboundLocalError] means that [resolution] was unbound; a
    return has stored the record and left [resolution] bound to the value
    the record carries. *)
Lemma build_record_step entry id crystalEntry det s r s' :
  build_record entry id crystalEntry det s = (r, s') ->
  (exists e, r = Raise e /\ s' = s /\
             (e = UnboundLocalError -> resolution_var s = None)) \/
  (exists structure,
     r = Ok tt /\ pdbid structure = id /\ details structure = det /\
     resolution_var s' = resolution structure /\ resolution structure <> None /\
     s' = mkState (updated (structureList s) structure) (pdbsWithoutDetails s)
                  (resolution structure) (structures_file s) (without_details_file s)
                  (requests s)).
Proof.
  unfold build_record, assign_resolution, read_resolution.
  unfold bind at 1. unfold lift at 1.
  destruct (getitem crystalEntry "method") as [meth|e] eqn:Em.
  2:{ intro H. inversion H; subst; clear H. left. exists e. repeat split.
      intros ->. exfalso. exact (getitem_not_unbound _ _ Em). }
  destruct (resolution_expr entry) as [f|e] eqn:Er.
  - unfold bind, set_resolution, modify, get, ret. cbn [resolution_var].
    rewrite update_store_eq. cbn. intro H. inversion H; subst; clear H.
    right. exists (mkStructure id (extract_pmcid entry) det [] (extract_pH crystalEntry)
              (extract_temperature crystalEntry) meth [] (Some f)).
    repeat split. discriminate.
  - unfold bind, get, ret. destruct (resolution_var s) as [f| ] eqn:Ev.
    + rewrite update_store_eq. intro H. inversion H; subst; clear H.
      right. exists (mkStructure id (extract_pmcid entry) det [] (extract_pH crystalEntry)
              (extract_temperature crystalEntry) meth [] (Some f)).
      cbn. rewrite Ev. repeat split. discriminate.
    + unfold lift. intro H. inversion H; subst; clear H. left. eexists. repeat split.
Qed.

(** One iteration of the entry loop, outcome by outcome.  The exclusion
    list is as before or has the identifier of the entry at its end; the
    store is as before, and then so is [resolution], or the iteration
    returned and the record of the entry took its place in the store. *)
Lemma process_entry_step onlyDetails entry s r s' :
  process_entry onlyDetails entry s = (r, s') ->
  (pdbsWithoutDetails s' = pdbsWithoutDetails s \/
   exists id, getitem entry "rcsb_id" = Ok id /\
              pdbsWithoutDetails s' = pdbsWithoutDetails s ++ [id]) /\
  ((structureList s' = structureList s /\ resolution_var s' = resolution_var s /\
    (r = Raise UnboundLocalError -> resolution_var s = None)) \/
   (exists structure,
      r = Ok tt /\ getitem entry "rcsb_id" = Ok (pdbid structure) /\
      (is_None (details structure) = false \/ onlyDetails = false) /\
      resolution_var s' = resolution structure /\ resolution structure <> None /\
      structureList s' = updated (structureList s) structure)).
Proof.
  unfold process_entry.
  unfold bind at 1. unfold lift at 1.
  destruct (getitem entry "rcsb_id") as [id|e] eqn:Eid.
  2:{ intro H; inversion H; subst; clear H. split; [now left| ]. left. repeat split.
      intro E. injection E as ->. exfalso. exact (getitem_not_unbound _ _ Eid). }
  unfold bind at 1. unfold lift at 1.
  destruct (getitem entry "exptl_crystal_grow") as [grow|e] eqn:Eg.
  2:{ intro H; inversion H; subst; clear H. split; [now left| ]. left. repeat split.
      intro E. injection E as ->. exfalso. exact (getitem_not_unbound _ _ Eg). }
  destruct (is_None grow) eqn:Ng.
  { rewrite append_without_details_eq. intro H; inversion H; subst; clear H.
    split; [right; eauto| ]. left. repeat split. discriminate. }
  unfold bind at 1. unfold lift at 1.
  destruct (getitem0 grow) as [c|e] eqn:Ec.
  2:{ intro H; inversion H; subst; clear H. split; [now left| ]. left. repeat split.
      intro E. injection E as ->. exfalso. exact (getitem0_not_unbound _ Ec). }
  unfold bind at 1. unfold lift at 1.
  destruct (getitem c "pdbx_details") as [det|e] eqn:Ed.
  2:{ intro H; inversion H; subst; clear H. split; [now left| ]. left. repeat split.
      intro E. injection E as ->. exfalso. exact (getitem_not_unbound _ _ Ed). }
  destruct (is_None det) eqn:Nd; cbn [andb].
  - unfold bind at 1. rewrite append_without_details_eq.
    destruct onlyDetails.
    + unfold ret. intro H; inversion H; subst; clear H.
      split; [right; eauto| ]. left. repeat split. discriminate.
    + intro Hb. destruct (build_record_step _ _ _ _ _ Hb) as
        [(e & -> & -> & Hu) | (st & -> & Hid & Hdet & Hres & Hnn & ->)].
      * split; [right; eauto| ]. left. repeat split.
        intro E. injection E as ->. exact (Hu eq_refl).
      * split; [right; eauto| ]. right. exists st.
        cbn [structureList excluded_also resolution_var]. repeat split; auto; congruence.
  - unfold bind at 1. unfold ret at 1.
    intro Hb. destruct (build_record_step _ _ _ _ _ Hb) as
      [(e & -> & -> & Hu) | (st & -> & Hid & Hdet & Hres & Hnn & ->)].
    + split; [now left| ]. left. repeat split.
      intro E. injection E as ->. exact (Hu eq_refl).
    + split; [now left| ]. right. exists st.
      cbn [structureList resolution_var]. repeat split; auto; try congruence.
      left. congruence.
Qed.

(* ================================================================== *)
(** * Further properties: the store and the whole run *)
(* ================================================================== *)

Lemma list_remove_In x y l : In x (list_remove y l) -> In x l.
Proof.
  induction l as [ |z l IH]; simpl; [tauto| ].
  destruct (Structure_eqb z y); simpl; tauto.
Qed.

Lemma updated_In x l r : In x (updated l r) -> In x l \/ x = r.
Proof.
  unfold updated. rewrite in_app_iff. simpl.
  destruct (getStructure l (pdbid r)); intros [H | [H | []]]; auto.
  left. eapply list_remove_In; eassumption.
Qed.

Lemma updated_NoDup l r :
  NoDup (stored_ids l) -> NoDup (stored_ids (updated l r)).
Proof.
  intro ND. unfold updated.
  destruct (getStructure l (pdbid r)) as [prior| ] eqn:E.
  - destruct (list_remove_found _ _ E) as (pre & post & -> & Hpre & ->).
    destruct (getStructure_Some _ _ E) as [_ Hid].
    destruct (NoDup_ids_split _ _ _ ND) as (ND' & Hn1 & Hn2).
    unfold stored_ids in *. rewrite map_app. simpl. apply NoDup_snoc; [exact ND'| ].
    rewrite map_app, in_app_iff, <- Hid. tauto.
  - apply getStructure_None in E. unfold stored_ids in *. rewrite map_app. simpl.
    now apply NoDup_snoc.
Qed.

Section Invariants.

Variable set_iter : list string -> list string.
Variable remote : list string -> res json.
Variable onlyDetails : bool.
Variable P : state -> Prop.

Hypothesis P_logged : forall t batch, P t -> P (logged batch t).
Hypothesis P_saved : forall t, P t -> P (saved t).

(** A property of the state that logging a request and saving the lists
    keep, and that the handling of every entry received keeps, is kept by a
    batch and by a run, however they end. *)
Lemma chunk_invariant batch :
  (forall response entry,
     remote batch = Ok response -> In entry (entries_of response) ->
     preserves P (process_entry onlyDetails entry)) ->
  preserves P (process_chunk remote onlyDetails batch).
Proof.
  intros He t r t' HP H.
  destruct (process_chunk_cases _ _ _ _ H) as
    [[-> _] | (resp & r1 & t1 & Er & _ & Hf & Hr)]; [now apply P_logged| ].
  assert (H1 : P t1).
  { refine (@preserves_for_each _ P _ _ _ _ _ _ (P_logged batch HP) Hf).
    intros e Hin. exact (He resp e Er Hin). }
  destruct Hr as [(e & _ & _ & ->) | (_ & _ & ->)]; [exact H1 | now apply P_saved].
Qed.

Lemma run_invariant pdbList ignoreW ignoreC s r s' :
  (forall work cs batch response entry,
     set_difference pdbList
       (ignored_ids ignoreW ignoreC (from_file (structures_file s))
                    (from_file (without_details_file s))) = Ok work ->
     chunks (set_iter work) CHUNK_SIZE = Ok cs -> In batch cs ->
     remote batch = Ok response -> In entry (entries_of response) ->
     preserves P (process_entry onlyDetails entry)) ->
  P (loaded s) ->
  fetchStructures set_iter remote pdbList onlyDetails ignoreW ignoreC s = (r, s') ->
  P s'.
Proof.
  intros He HP H.
  destruct (fetchStructures_cases _ _ _ _ _ _ _ H) as
    [(e & _ & _ & ->) | (work & cs & r1 & t1 & Ew & Ecs & Hf & Hr)]; [exact HP| ].
  assert (H1 : P t1).
  { refine (@preserves_for_each _ P _ _ _ _ _ _ HP Hf).
    intros batch Hin. apply chunk_invariant.
    intros resp e Er Hent. exact (He work cs batch resp e Ew Ecs Hin Er Hent). }
  destruct Hr as [(e & _ & _ & ->) | (_ & _ & ->)]; [exact H1 | now apply P_saved].
Qed.

End Invariants.

(** X1. A run only adds, and the files never run ahead of the memory.
    This is about the runs of the model: each file is absent or loads, a
    write succeeds, and a run ends by returning or because one of its own
    statements or the remote call raises; an interruption that arrives
    between two statements (between lines 212 and 213, say) is not among
    them.  For every such run, returned or raised, the exclusion file starts
    with what it held before and the exclusion list in memory starts with
    the file; every identifier the structure file stored before is stored in
    it afterwards, and every identifier stored in the file is stored in
    memory.  When the run returns, it returns the store in memory and both
    files hold exactly the lists in memory. *)
Theorem run_only_grows (set_iter : list string -> list string)
    (remote : list string -> res json) (universe : list string)
    (onlyDetails ignorePdbsWithoutDetails ignoreCompletedPdbs : bool)
    (s s' : state) (r : res (list Structure)) :
  fetchStructures set_iter remote universe onlyDetails
    ignorePdbsWithoutDetails ignoreCompletedPdbs s = (r, s') ->
  grown_from (stored_ids (from_file (structures_file s)))
             (from_file (without_details_file s)) s' /\
  forall result, r = Ok result ->
    result = structureList s' /\
    structures_file s' = Some (structureList s') /\
    without_details_file s' = Some (pdbsWithoutDetails s').
Proof.
  intro H. split.
  - refine (@run_invariant set_iter remote onlyDetails
              (grown_from (stored_ids (from_file (structures_file s)))
                          (from_file (without_details_file s)))
              _ _ universe _ _ s r s' _ _ H).
    + intros t batch HP. exact HP.
    + intros t ((a & Ha) & (b & Hb) & I1 & I2). unfold grown_from. cbn.
      repeat split.
      * exists (a ++ b). now rewrite Hb, Ha, app_assoc.
      * exists []. now rewrite app_nil_r.
      * eapply incl_tran; eassumption.
      * apply incl_refl.
    + intros _ _ _ _ entry _ _ _ _ _ t r0 t' ((a & Ha) & (b & Hb) & I1 & I2) He.
      destruct (process_entry_effect _ _ _ He) as (E1 & E2 & _ & _ & _ & _ & I).
      destruct (process_entry_step _ _ _ He) as [Hx _].
      unfold grown_from. rewrite E1, E2. repeat split.
      * eauto.
      * destruct Hx as [-> | (id & _ & ->)]; [eauto| ].
        exists (b ++ [id]). now rewrite Hb, app_assoc.
      * exact I1.
      * eapply incl_tran; eassumption.
    + unfold grown_from. cbn. repeat split.
      * exists []. now rewrite app_nil_r.
      * exists []. now rewrite app_nil_r.
      * apply incl_refl.
      * apply incl_refl.
  - intros result ->.
    destruct (fetchStructures_cases _ _ _ _ _ _ _ H) as
      [(e & _ & ? & _) | (work & cs & r1 & t1 & _ & _ & _ & Hr)]; [discriminate| ].
    destruct Hr as [(e & _ & ? & _) | (_ & E & ->)]; [discriminate| ].
    injection E as ->. repeat split.
Qed.

(** X2. A run keeps the store at one record per identifier: when the
    structure file holds at most one record per identifier, so do the store
    in memory and the structure file after the run, however it ends and
    whatever the remote service answered. *)
Theorem run_keeps_one_record_per_id (set_iter : list string -> list string)
    (remote : list string -> res json) (universe : list string)
    (onlyDetails ignorePdbsWithoutDetails ignoreCompletedPdbs : bool)
    (s s' : state) (r : res (list Structure)) :
  NoDup (stored_ids (from_file (structures_file s))) ->
  fetchStructures set_iter remote universe onlyDetails
    ignorePdbsWithoutDetails ignoreCompletedPdbs s = (r, s') ->
  one_record_per_id s'.
Proof.
  intros ND H.
  refine (@run_invariant set_iter remote onlyDetails one_record_per_id
            _ _ universe _ _ s r s' _ _ H).
  - intros t batch HP. exact HP.
  - intros t [N1 _]. split; exact N1.
  - intros _ _ _ _ entry _ _ _ _ _ t r0 t' [N1 N2] He.
    destruct (process_entry_effect _ _ _ He) as (E1 & _).
    destruct (process_entry_step _ _ _ He) as
      [_ [(Es & _) | (st & _ & _ & _ & _ & _ & Es)]];
      unfold one_record_per_id; rewrite E1, Es; split; auto using updated_NoDup.
  - split; exact ND.
Qed.

(** X3. With [onlyDetails] true a run stores no record without a details
    text: every record of the store after the run, in memory and in the
    file, however the run ends, was in the structure file before or has a
    details text that is not null. *)
Theorem only_details_stored (set_iter : list string -> list string)
    (remote : list string -> res json) (universe : list string)
    (ignorePdbsWithoutDetails ignoreCompletedPdbs : bool)
    (s s' : state) (r : res (list Structure)) :
  fetchStructures set_iter remote universe true
    ignorePdbsWithoutDetails ignoreCompletedPdbs s = (r, s') ->
  details_or_old (from_file (structures_file s)) s'.
Proof.
  intro H.
  refine (@run_invariant set_iter remote true
            (details_or_old (from_file (structures_file s)))
            _ _ universe _ _ s r s' _ _ H).
  - intros t batch HP. exact HP.
  - intros t [D1 _]. split; exact D1.
  - intros _ _ _ _ entry _ _ _ _ _ t r0 t' [D1 D2] He.
    destruct (process_entry_effect _ _ _ He) as (E1 & _).
    unfold details_or_old. rewrite E1. split; [ |exact D2].
    destruct (process_entry_step _ _ _ He) as
      [_ [(Es & _) | (st & _ & _ & [Hd | ?] & _ & _ & Es)]]; [ | |discriminate];
      rewrite Es; [exact D1| ].
    intros x Hx. apply updated_In in Hx. destruct Hx as [Hx | ->]; auto.
  - split; intros x Hx; left; exact Hx.
Qed.

(** X4. Nothing to fetch: when every identifier of the universe is stored
    or excluded and counts as such under the options (an empty universe
    among the cases), the run sends no request, returns the store as the
    file held it, and writes both files, which creates a file that did not
    exist. *)
Theorem nothing_to_fetch (set_iter : list string -> list string)
    (remote : list string -> res json) (universe : list string)
    (onlyDetails ignorePdbsWithoutDetails ignoreCompletedPdbs : bool) (s : state) :
  let stored := from_file (structures_file s) in
  let excluded := from_file (without_details_file s) in
  let ignored := ignored_ids ignorePdbsWithoutDetails ignoreCompletedPdbs stored excluded in
  (forall l, Permutation (set_iter l) l) ->
  (forall v, In v ignored -> hashable v = true) ->
  (forall x, In x universe -> In (JStr x) ignored) ->
  exists s',
    fetchStructures set_iter remote universe onlyDetails
      ignorePdbsWithoutDetails ignoreCompletedPdbs s = (Ok stored, s') /\
    requests s' = requests s /\
    structureList s' = stored /\ pdbsWithoutDetails s' = excluded /\
    structures_file s' = Some stored /\ without_details_file s' = Some excluded.
Proof.
  intros stored excluded ignored P Hh Hall.
  destruct (@set_difference_spec universe ignored Hh) as (work & Ew & _ & Hin).
  assert (work = []) as ->.
  { destruct work as [ |x work]; [reflexivity| ].
    destruct (proj1 (Hin x) (or_introl eq_refl)) as [Hu Hn]. elim Hn. now apply Hall. }
  assert (Eiter : set_iter [] = []) by (apply Permutation_nil, Permutation_sym, P).
  exists (saved (loaded s)). split; [ |repeat split].
  apply (@fetchStructures_ok set_iter remote universe onlyDetails
           ignorePdbsWithoutDetails ignoreCompletedPdbs s [] [] (loaded s) Ew).
  - rewrite Eiter. reflexivity.
  - reflexivity.
Qed.

(** Every chunk has at least one element and at most [n]. *)
Lemma chunk_sizes {A} (l : list A) (n : nat) cs c :
  chunks l n = Ok cs -> In c cs -> 0 < List.length c <= n.
Proof.
  destruct n as [ |n]; [discriminate| ]. rewrite chunks_eq. intro E.
  assert (E' : cs = map (fun k => firstn (S n) (skipn (k * S n) l))
                        (seq 0 ((List.length l + S n - 1) / S n))) by congruence.
  clear E. subst cs.
  intro Hc. apply in_map_iff in Hc. destruct Hc as (k & <- & Hk).
  apply in_seq in Hk. rewrite length_firstn, length_skipn.
  destruct (chunk_count (List.length l) n) as [_ Hlast].
  set (count := (List.length l + S n - 1) / S n) in *.
  assert (Hpos : 0 < List.length l).
  { destruct (Nat.eq_dec (List.length l) 0) as [E|E]; [ |lia].
    assert (count = 0) by (subst count; rewrite E; apply Nat.div_small; lia). lia. }
  destruct (Hlast Hpos) as [_ Htop].
  assert (H1 : k * S n <= (count - 1) * S n) by (apply Nat.mul_le_mono_r; lia).
  remember ((count - 1) * S n) as top. remember (k * S n) as start. lia.
Qed.

(** X5. When a run returns, it has asked for every pending identifier
    exactly once: the batches it sent, put end to end, have no duplicates and
    hold exactly the identifiers of the universe that are not ignored, and
    no batch is empty or has more than [CHUNK_SIZE] identifiers. *)
Theorem pending_requested_once (set_iter : list string -> list string)
    (remote : list string -> res json) (universe : list string)
    (onlyDetails ignorePdbsWithoutDetails ignoreCompletedPdbs : bool)
    (s s' : state) (result : list Structure) :
  (forall l, Permutation (set_iter l) l) ->
  fetchStructures set_iter remote universe onlyDetails
    ignorePdbsWithoutDetails ignoreCompletedPdbs s = (Ok result, s') ->
  exists sent,
    requests s' = requests s ++ sent /\
    NoDup (List.concat sent) /\
    (forall x, In x (List.concat sent) <->
       In x universe /\
       ~ In (JStr x) (ignored_ids ignorePdbsWithoutDetails ignoreCompletedPdbs
                        (from_file (structures_file s))
                        (from_file (without_details_file s)))) /\
    forall batch, In batch sent -> 0 < List.length batch <= CHUNK_SIZE.
Proof.
  intros P H.
  destruct (fetchStructures_cases _ _ _ _ _ _ _ H) as
    [(e & _ & ? & _) | (work & cs & r1 & t1 & Ew & Ecs & Hf & Hr)]; [discriminate| ].
  destruct Hr as [(e & _ & ? & _) | (-> & _ & ->)]; [discriminate| ].
  destruct (@batches_sent remote onlyDetails cs (loaded s) (Ok tt) t1 Hf) as (k & E & Hall).
  rewrite (Hall eq_refl) in E.
  destruct (set_difference_ok _ _ Ew) as (ND & _ & Hin).
  destruct (chunks_concat (set_iter work) 999) as (cs' & Ecs' & Hcat).
  change (S 999) with CHUNK_SIZE in Ecs'. rewrite Ecs in Ecs'. injection Ecs' as <-.
  exists cs. split; [exact E| ]. rewrite Hcat. split; [ |split].
  - eapply Permutation_NoDup; [apply Permutation_sym, P | exact ND].
  - intro x. rewrite (@in_set_iter set_iter work x P). apply Hin.
  - intros batch Hb. exact (@chunk_sizes _ _ _ _ _ Ecs Hb).
Qed.

(** X6. On disk a batch is all or nothing, as long as the two writes of
    lines 218-219 succeed and nothing interrupts the iteration from outside:
    the exceptions of the model are those of the iteration's own statements
    and of the remote call, and all of them come before line 218.  The
    iteration always logs its request.  When it raises, both files are as
    before; when it returns, either the response had no ["data"] and nothing
    but the log changed, or both files hold exactly the two lists in
    memory. *)
Theorem batch_all_or_nothing_on_disk (remote : list string -> res json)
    (onlyDetails : bool) (batch : list string) (s s' : state) (r : res unit) :
  process_chunk remote onlyDetails batch s = (r, s') ->
  requests s' = requests s ++ [batch] /\
  (forall e, r = Raise e ->
     structures_file s' = structures_file s /\
     without_details_file s' = without_details_file s) /\
  (r = Ok tt ->
     (exists response, remote batch = Ok response /\
                       contains "data" response = Ok false /\ s' = logged batch s) \/
     (structures_file s' = Some (structureList s') /\
      without_details_file s' = Some (pdbsWithoutDetails s'))).
Proof.
  intro H. split; [exact (@process_chunk_requests remote onlyDetails batch s r s' H)| ].
  destruct (process_chunk_cases _ _ _ _ H) as
    [[-> Hr] | (resp & r1 & t1 & _ & _ & Hf & Hr)].
  - split; [intros e _; split; reflexivity| ].
    intros ->. destruct Hr as [(e & ?) | (_ & resp & Er & Ec)]; [discriminate| ].
    left. eauto.
  - destruct (entries_frame _ _ _ Hf) as (F1 & F2 & _).
    destruct Hr as [(e & _ & -> & ->) | (_ & -> & ->)].
    + split; [intros _ _; split; assumption | discriminate].
    + split; [discriminate| ]. intros _. right. split; reflexivity.
Qed.

(** X7. An entry whose own statements raise (a missing key, a subscript or
    an iteration on a value that has none, the read of the unbound
    [resolution]; not an interruption from outside, which can arrive after
    line 204 or between lines 212 and 213) leaves no trace but, at most, its
    identifier in the exclusion list: the store, [resolution], both files
    and the request log are as before; and [UnboundLocalError] is raised
    only while [resolution] is unbound. *)
Theorem failed_entry_leaves_store (onlyDetails : bool) (entry : json)
    (s s' : state) (e : exn) :
  process_entry onlyDetails entry s = (Raise e, s') ->
  structureList s' = structureList s /\
  resolution_var s' = resolution_var s /\
  structures_file s' = structures_file s /\
  without_details_file s' = without_details_file s /\
  requests s' = requests s /\
  (pdbsWithoutDetails s' = pdbsWithoutDetails s \/
   exists id, getitem entry "rcsb_id" = Ok id /\
              pdbsWithoutDetails s' = pdbsWithoutDetails s ++ [id]) /\
  (e = UnboundLocalError -> resolution_var s = None).
Proof.
  intro H.
  destruct (process_entry_effect _ _ _ H) as (E1 & E2 & E3 & _).
  destruct (process_entry_step _ _ _ H) as
    [Hx [(Es & Er & Hu) | (st & ? & _)]]; [ |discriminate].
  repeat split; try assumption. intros ->. exact (Hu eq_refl).
Qed.

(** X8. The entry point never raises and always saves: whatever
    [fetchStructures] does, [main] returns, and both files then hold exactly
    the two lists in memory. *)
Theorem main_always_saves (set_iter : list string -> list string)
    (remote : list string -> res json) (allPdbs : list string) (s : state) :
  exists s',
    main set_iter remote allPdbs s = (Ok tt, s') /\
    structures_file s' = Some (structureList s') /\
    without_details_file s' = Some (pdbsWithoutDetails s') /\
    structureList s' =
      structureList (snd (fetchStructures set_iter remote allPdbs true true true s)) /\
    pdbsWithoutDetails s' =
      pdbsWithoutDetails (snd (fetchStructures set_iter remote allPdbs true true true s)).
Proof.
  unfold main, try_except. unfold bind at 1.
  destruct (fetchStructures set_iter remote allPdbs true true true s) as [r t] eqn:H.
  destruct (fetchStructures_cases _ _ _ _ _ _ _ H) as
    [(e & _ & -> & ->) | (work & cs & r1 & t1 & _ & _ & _ & Hr)].
  - eexists. split; [reflexivity| ]. repeat split.
  - destruct Hr as [(e & _ & -> & ->) | (_ & -> & ->)].
    + eexists. split; [reflexivity| ]. repeat split.
    + eexists. split; [reflexivity| ]. repeat split.
Qed.





(** X10. The edges of [chunks]: a batch size of zero raises [ValueError];
    an empty list gives no chunk at all; a list that is not empty and no
    longer than the batch size is one chunk, the list itself. *)
Theorem chunks_edges (A : Type) (lst : list A) (n : nat) :
  chunks lst 0 = Raise ValueError /\
  chunks (@nil A) (S n) = Ok [] /\
  (lst <> [] -> List.length lst <= S n -> chunks lst (S n) = Ok [lst]).
Proof.
  split; [reflexivity| ]. split.
  - rewrite chunks_eq. cbn [List.length]. rewrite Nat.div_small by lia. reflexivity.
  - intros Hne Hlen. rewrite chunks_eq.
    assert (Hpos : 0 < List.length lst) by (destruct lst; [congruence | simpl; lia]).
    assert (E : (List.length lst + S n - 1) / S n = 1).
    { symmetry. apply (Nat.div_unique _ _ 1 (List.length lst - 1)); lia. }
    rewrite E. cbn [seq map]. rewrite Nat.mul_0_l. cbn [skipn].
    now rewrite firstn_all2.
Qed.

Lemma contains_not_unbound k v : contains k v <> Raise UnboundLocalError.
Proof. destruct v; simpl; discriminate. Qed.

Lemma entries_not_unbound data :
  res_bind (getitem data "entries") iterate <> Raise UnboundLocalError.
Proof.
  destruct (getitem data "entries") as [v|e] eqn:E; cbn [res_bind].
  - destruct v; simpl; discriminate.
  - intro H. injection H as ->. exact (getitem_not_unbound _ _ E).
Qed.

Lemma set_difference_raises pdbList ignored e :
  set_difference pdbList ignored = Raise e -> e = TypeError.
Proof.
  unfold set_difference. destruct (forallb hashable ignored); [discriminate| ].
  intro H. now injection H.
Qed.

(** An entry loop that ends with [UnboundLocalError] ends with
    [resolution] unbound. *)
Lemma entry_loop_unbound onlyDetails entries t t' :
  for_each (process_entry onlyDetails) entries t = (Raise UnboundLocalError, t') ->
  resolution_var t' = None.
Proof.
  revert t. induction entries as [ |a l IH]; intros t H; simpl in H.
  - discriminate.
  - destruct (bind_inv _ _ _ H) as [([] & t1 & _ & H2) | (e & H1 & E)].
    + exact (IH _ H2).
    + injection E as <-.
      destruct (process_entry_step _ _ _ H1) as
        [_ [(_ & Er & Hu) | (st & ? & _)]]; [ |discriminate].
      rewrite Er. exact (Hu eq_refl).
Qed.

Section Unbound.

Variable set_iter : list string -> list string.
Variable remote : list string -> res json.
Hypothesis remote_exn : forall batch, remote batch <> Raise UnboundLocalError.
Variable onlyDetails : bool.

Lemma process_chunk_unbound batch t t' :
  process_chunk remote onlyDetails batch t = (Raise UnboundLocalError, t') ->
  resolution_var t' = None.
Proof.
  unfold process_chunk, loadPdbs.
  unfold bind at 1. unfold bind at 1. unfold modify at 1. unfold lift at 1.
  fold (logged batch t).
  destruct (remote batch) as [response|e] eqn:Er.
  2:{ intro H. assert (e = UnboundLocalError) by congruence. subst e.
      exfalso. exact (remote_exn Er). }
  unfold bind at 1. unfold lift at 1.
  destruct (contains "data" response) as [[ | ]|e] eqn:Ec; cbn [negb].
  3:{ intro H. exfalso. apply (@contains_not_unbound "data" response). congruence. }
  2:{ unfold ret. discriminate. }
  unfold bind at 1. unfold lift at 1.
  destruct (getitem response "data") as [data|e] eqn:Ed.
  2:{ intro H. exfalso. apply (@getitem_not_unbound response "data"). congruence. }
  unfold bind at 1. unfold lift at 1.
  destruct (res_bind (getitem data "entries") iterate) as [entries|e] eqn:Ee.
  2:{ intro H. exfalso. apply (@entries_not_unbound data). congruence. }
  unfold bind at 1.
  destruct (for_each (process_entry onlyDetails) entries (logged batch t))
    as [[[]|e] t1] eqn:Ef.
  - unfold bind, get, writeStructures, writeJson, modify. cbn. discriminate.
  - intro H. assert (e = UnboundLocalError) by congruence. subst e.
    assert (t1 = t') by congruence. subst t1.
    exact (entry_loop_unbound _ _ _ Ef).
Qed.

Lemma chunk_loop_unbound cs t t' :
  for_each (process_chunk remote onlyDetails) cs t = (Raise UnboundLocalError, t') ->
  resolution_var t' = None.
Proof.
  revert t. induction cs as [ |c cs IH]; intros t H; simpl in H.
  - discriminate.
  - destruct (bind_inv _ _ _ H) as [([] & t1 & _ & H2) | (e & H1 & E)].
    + exact (IH _ H2).
    + injection E as <-. exact (process_chunk_unbound _ _ H1).
Qed.

End Unbound.

(** X11. [UnboundLocalError] ends a run only before its first record: when
    the remote service does not itself raise it and the run ends with
    [UnboundLocalError], [resolution] is still unbound and the store, in
    memory and in the file, is exactly the store the file held before the
    run. *)
Theorem unbound_only_before_first_record (set_iter : list string -> list string)
    (remote : list string -> res json) (universe : list string)
    (onlyDetails ignorePdbsWithoutDetails ignoreCompletedPdbs : bool)
    (s s' : state) :
  (forall batch, remote batch <> Raise UnboundLocalError) ->
  fetchStructures set_iter remote universe onlyDetails
    ignorePdbsWithoutDetails ignoreCompletedPdbs s = (Raise UnboundLocalError, s') ->
  resolution_var s' = None /\
  structureList s' = from_file (structures_file s) /\
  from_file (structures_file s') = from_file (structures_file s).
Proof.
  intros Hrem H.
  assert (Hnone : resolution_var s' = None).
  { destruct (fetchStructures_cases _ _ _ _ _ _ _ H) as
      [(e & Ew & E & _) | (work & cs & r1 & t1 & _ & _ & Hf & Hr)].
    - injection E as <-. apply set_difference_raises in Ew. discriminate.
    - destruct Hr as [(e & -> & E & ->) | (_ & ? & _)]; [ |discriminate].
      injection E as <-. exact (@chunk_loop_unbound remote Hrem onlyDetails cs _ _ Hf). }
  split; [exact Hnone| ].
  refine (@run_invariant set_iter remote onlyDetails
            (untouched_while_unbound (from_file (structures_file s)))
            _ _ universe _ _ s _ s' _ _ H Hnone).
  - intros t batch HP. exact HP.
  - intros t HP Hn. destruct (HP Hn) as [M _]. split; exact M.
  - intros _ _ _ _ entry _ _ _ _ _ t r0 t' HP He Hn.
    destruct (process_entry_effect _ _ _ He) as (E1 & _).
    destruct (process_entry_step _ _ _ He) as
      [_ [(Es & Er & _) | (st & _ & _ & _ & Er & Hnn & _)]].
    + rewrite E1, Es. apply HP. congruence.
    + congruence.
  - intros _. split; reflexivity.
Qed.

(* ================================================================== *)
(** * Further properties: the request of loadPdbs *)
(* ================================================================== *)

Lemma flat_chars_app f (a b : string) :
  flat_chars f (a ++ b)%string = (flat_chars f a ++ flat_chars f b)%string.
Proof.
  induction a as [ |c a IH]; simpl; [reflexivity| ].
  rewrite IH. clear IH. induction (f c) as [ |d t IHt]; simpl; [reflexivity| ].
  now rewrite IHt.
Qed.

(** Replacing a single character works character by character. *)
Lemma replace_char (c : ascii) (new s : string) :
  replace (String c EmptyString) new s =
  flat_chars (fun d => if Ascii.eqb d c then new else String d EmptyString) s.
Proof.
  unfold replace. induction s as [ |d s IH]; [reflexivity| ].
  cbn [replace_from flat_chars String.prefix String.length Nat.sub].
  assert (Hp : String.prefix EmptyString s = true) by (destruct s; reflexivity).
  destruct (ascii_dec c d) as [<- | Hne].
  - rewrite Hp, Ascii.eqb_refl, IH. reflexivity.
  - destruct (Ascii.eqb d c) eqn:E; [apply Ascii.eqb_eq in E; congruence| ].
    rewrite IH. reflexivity.
Qed.

Lemma list_placed (new : string) :
  replace "[[PDB_LIST]]" new QUERY = (QUERY_before ++ new ++ QUERY_after)%string.
Proof. vm_compute. reflexivity. Qed.

Lemma plain_char (c : ascii) :
  plain c = true ->
  repr_char squote c = String c EmptyString /\ Ascii.eqb c squote = false.
Proof.
  destruct c as [[ | ] [ | ] [ | ] [ | ] [ | ] [ | ] [ | ] [ | ]];
    intro H; try discriminate H; split; reflexivity.
Qed.

Lemma plain_id_cons c s :
  plain_id (String c s) = true <-> plain c = true /\ plain_id s = true.
Proof. unfold plain_id. simpl. apply andb_true_iff. Qed.

Lemma has_char_cons c d s :
  has_char c (String d s) = Ascii.eqb c d || has_char c s.
Proof. reflexivity. Qed.

Lemma plain_no_squote (x : string) : plain_id x = true -> has_char squote x = false.
Proof.
  induction x as [ |c x IH]; [reflexivity| ]. intro H.
  apply plain_id_cons in H. destruct H as [Hc Hx].
  rewrite has_char_cons, (IH Hx), orb_false_r, Ascii.eqb_sym.
  exact (proj2 (plain_char c Hc)).
Qed.

Lemma repr_chars_plain (x : string) :
  plain_id x = true -> flat_chars (repr_char squote) x = x.
Proof.
  induction x as [ |c x IH]; [reflexivity| ]. intro H.
  apply plain_id_cons in H. destruct H as [Hc Hx].
  cbn [flat_chars]. rewrite (proj1 (plain_char c Hc)), (IH Hx). reflexivity.
Qed.

(** [repr] of an identifier of plain characters is the identifier between
    single quotes. *)
Lemma repr_plain (x : string) :
  plain_id x = true -> repr_str x = String squote (x ++ String squote EmptyString)%string.
Proof.
  intro H. unfold repr_str.
  rewrite (plain_no_squote x H). cbn [andb]. now rewrite repr_chars_plain.
Qed.

Lemma swap_plain (x : string) :
  plain_id x = true -> flat_chars swap_quote x = x.
Proof.
  induction x as [ |c x IH]; [reflexivity| ]. intro H.
  apply plain_id_cons in H. destruct H as [Hc Hx].
  cbn [flat_chars]. unfold swap_quote at 1.
  rewrite (proj2 (plain_char c Hc)), IH by assumption. reflexivity.
Qed.

Lemma swap_repr (x : string) :
  plain_id x = true -> flat_chars swap_quote (repr_str x) = quoted x.
Proof.
  intro H. rewrite repr_plain by assumption. unfold quoted.
  cbn [flat_chars]. rewrite flat_chars_app, swap_plain by assumption. reflexivity.
Qed.

Lemma swap_joined (l : list string) :
  forallb plain_id l = true ->
  flat_chars swap_quote (String.concat ", " (map repr_str l))
  = String.concat ", " (map quoted l).
Proof.
  induction l as [ |x l IH]; [reflexivity| ]. intro H.
  simpl in H. apply andb_true_iff in H. destruct H as [Hx Hl].
  destruct l as [ |y l].
  - simpl. now apply swap_repr.
  - change (String.concat ", " (map repr_str (x :: y :: l)))
      with (repr_str x ++ ", " ++ String.concat ", " (map repr_str (y :: l)))%string.
    change (String.concat ", " (map quoted (x :: y :: l)))
      with (quoted x ++ ", " ++ String.concat ", " (map quoted (y :: l)))%string.
    rewrite !flat_chars_app, swap_repr, (IH Hl) by assumption. reflexivity.
Qed.

(** X12. What [loadPdbs] asks for.  For identifiers made of printable
    characters other than the single quote and the backslash, the address
    is the fixed prefix, the query text, and in the place of the list the
    identifiers, each between double quotes, separated by a comma and a
    space, between square brackets.  Nothing is escaped on the way: a double
    quote inside an identifier reaches the query as it is. *)
Theorem request_of_plain_ids (pdbids : list string) :
  forallb plain_id pdbids = true ->
  request_url pdbids =
  ("https://data.rcsb.org/graphql?query=" ++ QUERY_before
   ++ "[" ++ String.concat ", " (map quoted pdbids) ++ "]" ++ QUERY_after)%string.
Proof.
  intro H. unfold request_url, build_query. f_equal.
  rewrite list_placed, replace_char. fold swap_quote. unfold str_list.
  rewrite !flat_chars_app, swap_joined by assumption.
  change (flat_chars swap_quote QUERY_before) with QUERY_before.
  change (flat_chars swap_quote QUERY_after) with QUERY_after.
  change (flat_chars swap_quote "[") with "[".
  change (flat_chars swap_quote "]") with "]".
  f_equal. cbn [String.append]. f_equal.
  generalize (String.concat ", " (map quoted pdbids)). intro j.
  induction j as [ |c j IH]; [reflexivity| ]. cbn [String.append]. now rewrite IH.
Qed.

(* ================================================================== *)
(** * The further properties at work on the sample data *)
(* ================================================================== *)

(** X1 at work on the sample run. *)
Lemma run_only_grows_witness :
  grown_from (stored_ids (from_file (structures_file (on_disk None None))))
             (from_file (without_details_file (on_disk None None))) after_sample_run /\
  forall result, Ok [record_1BBB] = Ok result ->
    result = structureList after_sample_run /\
    structures_file after_sample_run = Some (structureList after_sample_run) /\
    without_details_file after_sample_run = Some (pdbsWithoutDetails after_sample_run).
Proof.
  apply (@run_only_grows same_order (catalog_remote sample_catalog) ["1AAA"; "1BBB"]
           true true true (on_disk None None) after_sample_run (Ok [record_1BBB])).
  vm_compute. reflexivity.
Defined.

(** X2 at work: 1BBB is stored and fetched again. *)
Lemma run_keeps_one_record_per_id_witness : one_record_per_id (snd (fetchStructures same_order (catalog_remote sample_catalog)
          ["1AAA"; "1BBB"; "1CCC"] true true false (on_disk (Some [record_1BBB]) None))).
Proof.
  apply (@run_keeps_one_record_per_id same_order (catalog_remote sample_catalog)
           ["1AAA"; "1BBB"; "1CCC"] true true false (on_disk (Some [record_1BBB]) None)
           (snd (fetchStructures same_order (catalog_remote sample_catalog)
          ["1AAA"; "1BBB"; "1CCC"] true true false (on_disk (Some [record_1BBB]) None))) (fst (fetchStructures same_order (catalog_remote sample_catalog)
          ["1AAA"; "1BBB"; "1CCC"] true true false (on_disk (Some [record_1BBB]) None)))).
  - cbn. repeat constructor. intros [].
  - apply surjective_pairing.
Defined.

(** X3 at work. *)
Lemma only_details_stored_witness :
  details_or_old (from_file (structures_file (on_disk (Some [record_1BBB]) None)))
                 (snd (fetchStructures same_order (catalog_remote sample_catalog)
          ["1AAA"; "1BBB"; "1CCC"] true true false (on_disk (Some [record_1BBB]) None))).
Proof.
  apply (@only_details_stored same_order (catalog_remote sample_catalog)
           ["1AAA"; "1BBB"; "1CCC"] true false (on_disk (Some [record_1BBB]) None)
           (snd (fetchStructures same_order (catalog_remote sample_catalog)
          ["1AAA"; "1BBB"; "1CCC"] true true false (on_disk (Some [record_1BBB]) None))) (fst (fetchStructures same_order (catalog_remote sample_catalog)
          ["1AAA"; "1BBB"; "1CCC"] true true false (on_disk (Some [record_1BBB]) None)))).
  apply surjective_pairing.
Defined.

(** X4 at work: 1BBB is stored, 1AAA is excluded, and the universe has
    nothing else. *)
Lemma nothing_to_fetch_witness :
  exists s',
    fetchStructures same_order (catalog_remote sample_catalog) ["1AAA"; "1BBB"]
      true true true (on_disk (Some [record_1BBB]) (Some [JStr "1AAA"]))
      = (Ok [record_1BBB], s') /\
    requests s' = [] /\
    structureList s' = [record_1BBB] /\ pdbsWithoutDetails s' = [JStr "1AAA"] /\
    structures_file s' = Some [record_1BBB] /\
    without_details_file s' = Some [JStr "1AAA"].
Proof.
  apply (@nothing_to_fetch same_order (catalog_remote sample_catalog) ["1AAA"; "1BBB"]
           true true true (on_disk (Some [record_1BBB]) (Some [JStr "1AAA"]))).
  - intro l. apply Permutation_refl.
  - intros v Hv. cbn in Hv. destruct Hv as [<- | [<- | []]]; reflexivity.
  - intros x Hx. cbn in Hx. destruct Hx as [<- | [<- | []]]; cbn; auto.
Defined.

(** X5 at work on the sample run. *)
Lemma pending_requested_once_witness :
  exists sent,
    requests after_sample_run = requests (on_disk None None) ++ sent /\
    NoDup (List.concat sent) /\
    (forall x, In x (List.concat sent) <->
       In x ["1AAA"; "1BBB"] /\
       ~ In (JStr x) (ignored_ids true true
                        (from_file (structures_file (on_disk None None)))
                        (from_file (without_details_file (on_disk None None))))) /\
    forall batch, In batch sent -> 0 < List.length batch <= CHUNK_SIZE.
Proof.
  apply (@pending_requested_once same_order (catalog_remote sample_catalog)
           ["1AAA"; "1BBB"] true true true (on_disk None None) after_sample_run
           [record_1BBB]).
  - intro l. apply Permutation_refl.
  - vm_compute. reflexivity.
Defined.

(** X6 at work: from the sample store the batch 1AAA, 1BBB excludes 1AAA,
    stores 1BBB again, and both files are written. *)
Lemma batch_all_or_nothing_on_disk_witness :
  requests after_sample_batch = requests sample_store ++ [["1AAA"; "1BBB"]] /\
  (forall e, Ok tt = Raise e ->
     structures_file after_sample_batch = structures_file sample_store /\
     without_details_file after_sample_batch = without_details_file sample_store) /\
  (Ok tt = Ok tt ->
     (exists response, catalog_remote sample_catalog ["1AAA"; "1BBB"] = Ok response /\
                       contains "data" response = Ok false /\
                       after_sample_batch = logged ["1AAA"; "1BBB"] sample_store) \/
     (structures_file after_sample_batch = Some (structureList after_sample_batch) /\
      without_details_file after_sample_batch
        = Some (pdbsWithoutDetails after_sample_batch))).
Proof.
  apply (@batch_all_or_nothing_on_disk (catalog_remote sample_catalog) true
           ["1AAA"; "1BBB"] sample_store after_sample_batch (Ok tt)).
  vm_compute. reflexivity.
Defined.

(** X7 at work: with [onlyDetails] false entry 1FFF is excluded for its
    null details, and then the read of its method raises [KeyError]. *)
Lemma failed_entry_leaves_store_witness :
  structureList (excluded_also (JStr "1FFF") sample_store) = structureList sample_store /\
  resolution_var (excluded_also (JStr "1FFF") sample_store) = resolution_var sample_store /\
  structures_file (excluded_also (JStr "1FFF") sample_store)
    = structures_file sample_store /\
  without_details_file (excluded_also (JStr "1FFF") sample_store)
    = without_details_file sample_store /\
  requests (excluded_also (JStr "1FFF") sample_store) = requests sample_store /\
  (pdbsWithoutDetails (excluded_also (JStr "1FFF") sample_store)
     = pdbsWithoutDetails sample_store \/
   exists id, getitem entry_1FFF "rcsb_id" = Ok id /\
              pdbsWithoutDetails (excluded_also (JStr "1FFF") sample_store)
                = pdbsWithoutDetails sample_store ++ [id]) /\
  (KeyError = UnboundLocalError -> resolution_var sample_store = None).
Proof.
  apply (@failed_entry_leaves_store false entry_1FFF sample_store
           (excluded_also (JStr "1FFF") sample_store) KeyError).
  vm_compute. reflexivity.
Defined.


(** X10 at work: three elements, batches of four. *)
Lemma chunks_edges_witness : chunks [1; 2; 3] 4 = Ok [[1; 2; 3]].
Proof.
  apply (proj2 (proj2 (@chunks_edges nat [1; 2; 3] 3))).
  - discriminate.
  - simpl. lia.
Defined.

(** X11 at work: 1CCC comes first. *)
Lemma unbound_only_before_first_record_witness :
  resolution_var (mkState [] [] None None None [["1CCC"; "1BBB"]]) = None /\
  structureList (mkState [] [] None None None [["1CCC"; "1BBB"]])
    = from_file (structures_file (on_disk None None)) /\
  from_file (structures_file (mkState [] [] None None None [["1CCC"; "1BBB"]]))
    = from_file (structures_file (on_disk None None)).
Proof.
  apply (@unbound_only_before_first_record same_order (catalog_remote sample_catalog)
           ["1CCC"; "1BBB"] true true true (on_disk None None)
           (mkState [] [] None None None [["1CCC"; "1BBB"]])).
  - intros batch. discriminate.
  - vm_compute. reflexivity.
Defined.

(** X12 at work: the identifiers of the docstring of [loadPdbs]. *)
Lemma request_of_plain_ids_witness :
  request_url ["1STP"; "2JEF"; "1CDG"] =
  ("https://data.rcsb.org/graphql?query=" ++ QUERY_before
   ++ "[" ++ String.concat ", " (map quoted ["1STP"; "2JEF"; "1CDG"]) ++ "]"
   ++ QUERY_after)%string.
Proof.
  apply (@request_of_plain_ids ["1STP"; "2JEF"; "1CDG"]). reflexivity.
Defined.

(* ================================================================== *)
(** * Further properties: what of an entry is read *)
(* ================================================================== *)

(** X13. Only the first crystallization condition counts.  Two entries that
    agree on the identifier, the resolution information and the publication,
    and whose lists of conditions start with the same condition, are handled
    in the same way in every state, whatever conditions follow. *)
Theorem first_condition_only (onlyDetails : bool) (entry entry' : json)
    (condition : json) (others others' : list json) (s : state) :
  getitem entry' "rcsb_id" = getitem entry "rcsb_id" ->
  getitem entry' "rcsb_entry_info" = getitem entry "rcsb_entry_info" ->
  getitem entry' "pubmed" = getitem entry "pubmed" ->
  getitem entry "exptl_crystal_grow" = Ok (JList (condition :: others)) ->
  getitem entry' "exptl_crystal_grow" = Ok (JList (condition :: others')) ->
  process_entry onlyDetails entry' s = process_entry onlyDetails entry s.
Proof.
  intros Eid Einfo Epub Eg Eg'.
  unfold process_entry, build_record, assign_resolution, extract_pmcid, resolution_expr.
  unfold bind at 1 3. unfold lift at 1 3. rewrite Eid.
  destruct (getitem entry "rcsb_id") as [id|e]; [ |reflexivity].
  unfold bind at 1 3. unfold lift at 1 3. rewrite Eg, Eg'. cbn [is_None getitem0].
  rewrite Einfo, Epub. reflexivity.
Qed.

(** X14. With [onlyDetails] false an entry whose details text is null is
    excluded and stored all the same: when its method can be read and its
    resolution converts, the iteration returns, the identifier is added to
    the exclusion list, and the record, with null details and the converted
    resolution, is the last of the store. *)
Theorem null_details_excluded_and_stored (entry id grow crystalEntry det meth : json)
    (f : pyfloat) (s : state) :
  getitem entry "rcsb_id" = Ok id ->
  getitem entry "exptl_crystal_grow" = Ok grow -> is_None grow = false ->
  getitem0 grow = Ok crystalEntry ->
  getitem crystalEntry "pdbx_details" = Ok det -> is_None det = true ->
  getitem crystalEntry "method" = Ok meth ->
  resolution_expr entry = Ok f ->
  exists s' rest structure,
    process_entry false entry s = (Ok tt, s') /\
    pdbsWithoutDetails s' = pdbsWithoutDetails s ++ [id] /\
    structureList s' = rest ++ [structure] /\
    pdbid structure = id /\ details structure = JNull /\
    resolution structure = Some f /\ resolution_var s' = Some f.
Proof.
  intros Eid Eg Ng Ec Ed Nd Em Er.
  destruct det; try discriminate Nd.
  unfold process_entry, build_record, assign_resolution, read_resolution.
  unfold bind at 1. unfold lift at 1. rewrite Eid.
  unfold bind at 1. unfold lift at 1. rewrite Eg, Ng.
  unfold bind at 1. unfold lift at 1. rewrite Ec.
  unfold bind at 1. unfold lift at 1. rewrite Ed. cbn [is_None andb].
  unfold bind at 1. rewrite append_without_details_eq.
  unfold bind at 1. unfold lift at 1. rewrite Em, Er.
  unfold bind, set_resolution, modify, get, ret. cbn [resolution_var].
  rewrite update_store_eq. unfold updated. cbn.
  do 3 eexists. split; [reflexivity| ]. repeat split.
Qed.

(** X13 at work: 1BBB with a second condition. *)
Lemma first_condition_only_witness :
  process_entry true
    (sample_entry "1BBB"
       (JList [JDict [("method", JStr "Vapor Diffusion"); ("temp", JStr "298");
                      ("pdbx_details", JStr "PEG 4000, 0.1 M HEPES"); ("pH", JStr "7.0")];
               JDict [("method", JStr "Batch"); ("temp", JNull);
                      ("pdbx_details", JNull); ("pH", JNull)]])
       (JList [JFloat (float_of_decimal false 18 (-1))]) JNull)
    sample_store
  = process_entry true entry_1BBB sample_store.
Proof.
  apply (@first_condition_only true entry_1BBB _
           (JDict [("method", JStr "Vapor Diffusion"); ("temp", JStr "298");
                   ("pdbx_details", JStr "PEG 4000, 0.1 M HEPES"); ("pH", JStr "7.0")])
           [] [JDict [("method", JStr "Batch"); ("temp", JNull);
                      ("pdbx_details", JNull); ("pH", JNull)]] sample_store);
    reflexivity.
Defined.

(** X14 at work: an entry with a method, a resolution and no details. *)
Lemma null_details_excluded_and_stored_witness :
  exists s' rest structure,
    process_entry false
      (sample_entry "1EEE" (sample_grow (JStr "Batch") JNull JNull JNull)
                    (JList [JInt 2]) JNull) sample_store = (Ok tt, s') /\
    pdbsWithoutDetails s' = pdbsWithoutDetails sample_store ++ [JStr "1EEE"] /\
    structureList s' = rest ++ [structure] /\
    pdbid structure = JStr "1EEE" /\ details structure = JNull /\
    resolution structure = Some (float_of_decimal false 2 0) /\
    resolution_var s' = Some (float_of_decimal false 2 0).
Proof.
  apply (@null_details_excluded_and_stored
           (sample_entry "1EEE" (sample_grow (JStr "Batch") JNull JNull JNull)
                         (JList [JInt 2]) JNull)
           (JStr "1EEE") (sample_grow (JStr "Batch") JNull JNull JNull)
           (JDict [("method", JStr "Batch"); ("temp", JNull);
                   ("pdbx_details", JNull); ("pH", JNull)])
           JNull (JStr "Batch") (float_of_decimal false 2 0) sample_store);
    reflexivity.
Defined.
